(** * Wagon load balancing: the bottleneck assignment model of
    [wagon_load_balancing.ipynb]

    The notebook loads two tables (boxes with weights, wagons with
    capacities), declares a mixed-integer linear model with Pyomo, hands it
    to GLPK and prints the assignment and the objective value.

    The development follows the cells of the notebook:
    - [Pyomo]: the fragment of the modelling library the notebook uses
      (variables with a domain, linear expressions, relational expressions,
      [ConstraintList.add], [pyo.value]) and the meaning of a model
      (feasible and optimal valuations), over exact rationals;
    - [Py]: the state-and-exception monad the cells run in;
    - [Notebook]: the cells themselves, translated statement by statement.

    Numbers are exact rationals ([Q]): the solver's floating point
    tolerances are outside the model. *)

From Stdlib Require Import ZArith QArith Qminmax List Permutation Bool String Lia Lqa.
Import ListNotations.
Open Scope Q_scope.

(** ** Exceptions and the cell monad *)

(** The Python exceptions the translated statements can raise. *)
Inductive exn : Type :=
| ValueError (msg : string)
| KeyError (key : list Z)
| AttributeError (attr : string).

Module Py.
Section WithState.
Context {S : Type}.

(** A statement transforms the state and either raises or returns; the
    state reached before a raise is kept (what a cell printed before it
    failed stays printed). *)
Definition M (A : Type) : Type := S -> (exn + A) * S.

Definition ret {A} (a : A) : M A := fun s => (inr a, s).

Definition bind {A B} (c : M A) (k : A -> M B) : M B :=
  fun s => match c s with
           | (inl e, s') => (inl e, s')
           | (inr a, s') => k a s'
           end.

Definition raise {A} (e : exn) : M A := fun s => (inl e, s).
Definition get : M S := fun s => (inr s, s).
Definition modify (f : S -> S) : M unit := fun s => (inr tt, f s).

(** [for a in l: body a] *)
Fixpoint for_ {A} (l : list A) (body : A -> M unit) : M unit :=
  match l with
  | [] => ret tt
  | a :: l' => bind (body a) (fun _ => for_ l' body)
  end.

(** A generator expression [f a for a in l], forced left to right. *)
Fixpoint gen {A B} (l : list A) (f : A -> M B) : M (list B) :=
  match l with
  | [] => ret []
  | a :: l' => bind (f a) (fun b => bind (gen l' f) (fun bs => ret (b :: bs)))
  end.
End WithState.
Arguments M : clear implicits.
End Py.

Declare Scope py_scope.
Delimit Scope py_scope with py.
Notation "v <- c ;; k" := (Py.bind c (fun v => k))
  (at level 61, c at next level, right associativity) : py_scope.
Notation "c ;; k" := (Py.bind c (fun _ => k))
  (at level 61, right associativity) : py_scope.

(** ** The Pyomo fragment *)

Module Pyomo.

Inductive domain : Type := Binary | NonNegativeReals.
Inductive sense : Type := minimize | maximize.

(** The variable data objects of the model: [model.x[b,n]] and [model.W]. *)
Inductive var : Type :=
| xvar (b n : Z)
| Wvar.

(** Linear expressions as the overloaded [+] and [*] build them. *)
Inductive expr : Type :=
| Num (q : Q)
| Ref (v : var)
| Sum (e1 e2 : expr)
| Prod (q : Q) (e : expr).

Inductive relation : Type := EQ | LE.

(** [lhs == rhs] or [lhs <= rhs] with a Pyomo object on a side. *)
Record relational : Type := Rel { lhs : expr; rel : relation; rhs : expr }.

(** What a Python arithmetic expression of the notebook evaluates to: a
    plain number, or a Pyomo expression as soon as a variable is involved. *)
Inductive pyobj : Type :=
| PyNum (q : Q)
| PyExpr (e : expr).

(** What a comparison evaluates to: a Python [bool] between two plain
    numbers, a relational expression otherwise. *)
Inductive pycmp : Type :=
| PyBool (b : bool)
| PyRel (c : relational).

Definition as_expr (o : pyobj) : expr :=
  match o with
  | PyNum q => Num q
  | PyExpr e => e
  end.

Definition py_add (a b : pyobj) : pyobj :=
  match a, b with
  | PyNum p, PyNum q => PyNum (p + q)
  | _, _ => PyExpr (Sum (as_expr a) (as_expr b))
  end.

(** [w * model.x[b,n]]: a number times a variable. *)
Definition py_mul (w : Q) (v : var) : pyobj := PyExpr (Prod w (Ref v)).

(** The builtin [sum]: starts from the integer 0 and adds left to right. *)
Definition py_sum (terms : list pyobj) : pyobj :=
  fold_left py_add terms (PyNum 0).

Definition py_eq (a b : pyobj) : pycmp :=
  match a, b with
  | PyNum p, PyNum q => PyBool (Qeq_bool p q)
  | _, _ => PyRel (Rel (as_expr a) EQ (as_expr b))
  end.

Definition py_le (a b : pyobj) : pycmp :=
  match a, b with
  | PyNum p, PyNum q => PyBool (Qle_bool p q)
  | _, _ => PyRel (Rel (as_expr a) LE (as_expr b))
  end.

(** The components the notebook attaches to its [ConcreteModel]; [None]
    is a component not declared yet.  [value] holds the values of the
    variables: [None] until a solution is loaded. *)
Record ConcreteModel : Type := mkModel {
  name : string;
  x : option (list (Z * Z) * domain);
  W : option domain;
  objective : option (expr * sense);
  constraint1 : option (list relational);
  constraint2 : option (list relational);
  value_of : var -> option Q
}.

Definition new_model (nm : string) : ConcreteModel :=
  mkModel nm None None None None None (fun _ => None).

Definition set_x (c : list (Z * Z) * domain) (m : ConcreteModel) :=
  mkModel (name m) (Some c) (W m) (objective m) (constraint1 m)
          (constraint2 m) (value_of m).
Definition set_W (d : domain) (m : ConcreteModel) :=
  mkModel (name m) (x m) (Some d) (objective m) (constraint1 m)
          (constraint2 m) (value_of m).
Definition set_objective (o : expr * sense) (m : ConcreteModel) :=
  mkModel (name m) (x m) (W m) (Some o) (constraint1 m)
          (constraint2 m) (value_of m).
Definition set_constraint1 (cs : list relational) (m : ConcreteModel) :=
  mkModel (name m) (x m) (W m) (objective m) (Some cs)
          (constraint2 m) (value_of m).
Definition set_constraint2 (cs : list relational) (m : ConcreteModel) :=
  mkModel (name m) (x m) (W m) (objective m) (constraint1 m)
          (Some cs) (value_of m).
Definition load_values (vals : var -> option Q) (m : ConcreteModel) :=
  mkModel (name m) (x m) (W m) (objective m) (constraint1 m)
          (constraint2 m) vals.

(** The index set of [pyo.Var(B, N)]: the product, [B]-major.  For lists
    without repetition; [pyo.Var] keeps one key for a repeated label, which
    this product does not do. *)
Definition product (B N : list Z) : list (Z * Z) :=
  flat_map (fun b => map (fun n => (b, n)) N) B.

(** [ConstraintList.add(expr=...)]: a relational expression is appended;
    an expression that already collapsed to a Python [bool] is rejected. *)
Definition ConstraintList_add (attr : string)
    (getl : ConcreteModel -> option (list relational))
    (setl : list relational -> ConcreteModel -> ConcreteModel)
    (c : pycmp) : Py.M ConcreteModel unit :=
  (m <- Py.get ;;
   match getl m with
   | None => Py.raise (AttributeError attr)
   | Some cs =>
       match c with
       | PyBool _ =>
           Py.raise (ValueError "Invalid constraint expression: trivial Boolean")
       | PyRel r => Py.modify (setl (cs ++ [r]))
       end
   end)%py.

(** *** Meaning of a model *)

Definition valuation : Type := var -> Q.

Fixpoint eval (v : valuation) (e : expr) : Q :=
  match e with
  | Num q => q
  | Ref r => v r
  | Sum e1 e2 => eval v e1 + eval v e2
  | Prod q e' => q * eval v e'
  end.

Definition in_domain (d : domain) (q : Q) : Prop :=
  match d with
  | Binary => q == 0 \/ q == 1
  | NonNegativeReals => 0 <= q
  end.

Definition in_domainb (d : domain) (q : Q) : bool :=
  match d with
  | Binary => Qeq_bool q 0 || Qeq_bool q 1
  | NonNegativeReals => Qle_bool 0 q
  end.

Definition satisfies (v : valuation) (c : relational) : Prop :=
  match rel c with
  | EQ => eval v (lhs c) == eval v (rhs c)
  | LE => eval v (lhs c) <= eval v (rhs c)
  end.

Definition satisfiesb (v : valuation) (c : relational) : bool :=
  match rel c with
  | EQ => Qeq_bool (eval v (lhs c)) (eval v (rhs c))
  | LE => Qle_bool (eval v (lhs c)) (eval v (rhs c))
  end.

Definition constraints_of (l : option (list relational)) : list relational :=
  match l with Some cs => cs | None => [] end.

(** A valuation is feasible when every declared variable lies in its
    domain and every constraint of every constraint list holds. *)
Definition feasible (m : ConcreteModel) (v : valuation) : Prop :=
  match x m with
  | Some (idx, d) => forall b n, In (b, n) idx -> in_domain d (v (xvar b n))
  | None => True
  end /\
  match W m with
  | Some d => in_domain d (v Wvar)
  | None => True
  end /\
  Forall (satisfies v) (constraints_of (constraint1 m)) /\
  Forall (satisfies v) (constraints_of (constraint2 m)).

Definition feasibleb (m : ConcreteModel) (v : valuation) : bool :=
  match x m with
  | Some (idx, d) => forallb (fun k => in_domainb d (v (xvar (fst k) (snd k)))) idx
  | None => true
  end &&
  match W m with
  | Some d => in_domainb d (v Wvar)
  | None => true
  end &&
  forallb (satisfiesb v) (constraints_of (constraint1 m)) &&
  forallb (satisfiesb v) (constraints_of (constraint2 m)).

Definition objective_value (m : ConcreteModel) (v : valuation) : Q :=
  match objective m with
  | Some (e, _) => eval v e
  | None => 0
  end.

Definition no_worse (m : ConcreteModel) (a b : Q) : Prop :=
  match objective m with
  | Some (_, minimize) => a <= b
  | Some (_, maximize) => b <= a
  | None => True
  end.

(** An optimal valuation: feasible, and no feasible valuation has a
    better objective value. *)
Definition optimal (m : ConcreteModel) (v : valuation) : Prop :=
  feasible m v /\
  forall v', feasible m v' ->
             no_worse m (objective_value m v) (objective_value m v').

End Pyomo.

(** ** The notebook *)

Module Notebook.
Import Pyomo.

(** A sheet read with [index_col=0] and one data column: rows of
    (index label, value).  [Boxes] has the column [Weight], [Wagons] the
    column [Capacity].  Labels are meant distinct, as in the key column of
    a sheet: with a repeated label [series[label]] is a sub-series in
    pandas and the index set of [pyo.Var] drops the repetition, which the
    definitions below do not follow. *)
Definition DataFrame : Type := list (Z * Q).

(** [df.index] *)
Definition index (df : DataFrame) : list Z := map fst df.

(** [series[label]] for a label of the index. *)
Fixpoint getitem (s : DataFrame) (k : Z) : option Q :=
  match s with
  | [] => None
  | (k', q) :: s' => if Z.eqb k' k then Some q else getitem s' k
  end.

(** The termination conditions of the solver adapter. *)
Module TerminationCondition.
Inductive t : Type := optimal | infeasible | unbounded | maxTimeLimit | error.
End TerminationCondition.

(** A line of standard output. *)
Inductive line : Type :=
| Assigned (b n : Z)      (* Box: b is assigend to wagon: n *)
| Heaviest (w : Q).       (* The minimum maximum weight ... is w *)

(** What the cells after the solve do to the outside: the lines printed,
    and (ghost) the variables whose value was asked for, both oldest
    first. *)
Record io : Type := mkIO { reads : list var; stdout : list line }.

Definition io0 : io := mkIO [] [].
Definition log_read (v : var) (s : io) : io := mkIO (reads s ++ [v]) (stdout s).
Definition print (l : line) : Py.M io unit :=
  Py.modify (fun s => mkIO (reads s) (stdout s ++ [l])).

Section Cells.
Variables boxes wagons : DataFrame.

(** B = boxes.index; N = wagons.index; wb = boxes["Weight"] *)
Definition B : list Z := index boxes.
Definition N : list Z := index wagons.
Definition wb : DataFrame := boxes.

(** [wb[b]] *)
Definition wb_getitem {S} (b : Z) : Py.M S Q :=
  match getitem wb b with
  | Some w => Py.ret w
  | None => Py.raise (KeyError [b])
  end.

(** [model.x[b,n]] *)
Definition x_getitem (b n : Z) : Py.M ConcreteModel var :=
  (m <- Py.get ;;
   match x m with
   | None => Py.raise (AttributeError "x")
   | Some (idx, _) =>
       if existsb (fun k => Z.eqb (fst k) b && Z.eqb (snd k) n) idx
       then Py.ret (xvar b n)
       else Py.raise (KeyError [b; n])
   end)%py.

(** [sum(model.x[b,n] for n in N) == 1] *)
Definition constraint1_expr (b : Z) : Py.M ConcreteModel pycmp :=
  (terms <- Py.gen N (fun n => v <- x_getitem b n ;; Py.ret (PyExpr (Ref v))) ;;
   Py.ret (py_eq (py_sum terms) (PyNum 1)))%py.

(** [sum(wb[b]*model.x[b,n] for b in B) <= model.W] *)
Definition constraint2_expr (n : Z) : Py.M ConcreteModel pycmp :=
  (terms <- Py.gen B (fun b => w <- wb_getitem b ;;
                               v <- x_getitem b n ;;
                               Py.ret (py_mul w v)) ;;
   Py.ret (py_le (py_sum terms) (PyExpr (Ref Wvar))))%py.

(** The model construction cell, up to the solver call. *)
Definition build_cell : Py.M ConcreteModel unit :=
  (Py.modify (set_x (product B N, Binary)) ;;
   Py.modify (set_W NonNegativeReals) ;;
   Py.modify (set_objective (Ref Wvar, minimize)) ;;
   Py.modify (set_constraint1 []) ;;
   Py.for_ B (fun b =>
     c <- constraint1_expr b ;;
     ConstraintList_add "constraint1" constraint1 set_constraint1 c) ;;
   Py.modify (set_constraint2 []) ;;
   Py.for_ N (fun n =>
     c <- constraint2_expr n ;;
     ConstraintList_add "constraint2" constraint2 set_constraint2 c))%py.

Definition build_model : exn + ConcreteModel :=
  match build_cell (new_model "Wagon load balancing") with
  | (inl e, _) => inl e
  | (inr _, m) => inr m
  end.

(** [results = solver.solve(model)]: the engine is external; it reports
    a termination condition and the values it loads into the model. *)
Definition solve (engine : ConcreteModel -> TerminationCondition.t * (var -> option Q))
    (m : ConcreteModel) : TerminationCondition.t * ConcreteModel :=
  let (tc, vals) := engine m in (tc, load_values vals m).

(** [pyo.value(e)]: the value of an expression under the values held by
    the model, every variable asked for being recorded; a variable
    without a value raises. *)
Fixpoint pyo_value (m : ConcreteModel) (e : expr) : Py.M io Q :=
  match e with
  | Num q => Py.ret q
  | Ref r =>
      (Py.modify (log_read r) ;;
       match value_of m r with
       | Some q => Py.ret q
       | None => Py.raise (ValueError "No value for uninitialized NumericValue object")
       end)%py
  | Sum e1 e2 => (a <- pyo_value m e1 ;; b <- pyo_value m e2 ;; Py.ret (a + b))%py
  | Prod q e' => (a <- pyo_value m e' ;; Py.ret (q * a))%py
  end.

(** The decoding cell. *)
Definition decode_cell (m : ConcreteModel) : Py.M io unit :=
  Py.for_ N (fun n =>
    Py.for_ B (fun b =>
      (q <- pyo_value m (Ref (xvar b n)) ;;
       if negb (Qeq_bool q 0) then print (Assigned b n) else Py.ret tt)%py)).

(** The cell printing the objective value. *)
Definition report_cell (m : ConcreteModel) : Py.M io unit :=
  match objective m with
  | None => Py.raise (AttributeError "objective")
  | Some (e, _) => (q <- pyo_value m e ;; print (Heaviest q))%py
  end.

(** The cells after the solver call: [results] is in scope but none of
    them mentions it. *)
Definition after_solve (results : TerminationCondition.t) (m : ConcreteModel)
  : Py.M io unit :=
  (decode_cell m ;; report_cell m)%py.

(** Run all cells. *)
Definition run_all (engine : ConcreteModel -> TerminationCondition.t * (var -> option Q))
  : (exn + unit) * io :=
  match build_model with
  | inl e => (inl e, io0)
  | inr m => let (results, m') := solve engine m in
             after_solve results m' io0
  end.
End Cells.

End Notebook.

(** ** Vocabulary of the statements *)

Module Model.
Import Pyomo Notebook.

(** Sum of a list of rationals. *)
Definition qsum (l : list Q) : Q := fold_right Qplus 0 l.

(** Largest element of a list, from a floor [lo]. *)
Definition qmax_from (lo : Q) (l : list Q) : Q := fold_right Qmax lo l.

(** The weight column read at a label of the index. *)
Definition weight (boxes : DataFrame) (b : Z) : Q :=
  match getitem boxes b with Some w => w | None => 0 end.

(** Number of wagons a box is placed in, and the load of a wagon, under
    a valuation. *)
Definition placed (wagons : DataFrame) (v : valuation) (b : Z) : Q :=
  qsum (map (fun n => v (xvar b n)) (N wagons)).

Definition load (boxes : DataFrame) (v : valuation) (n : Z) : Q :=
  qsum (map (fun b => weight boxes b * v (xvar b n)) (B boxes)).

Definition loads (boxes wagons : DataFrame) (v : valuation) : list Q :=
  map (load boxes v) (N wagons).

(** The expressions the two loops build. *)
Definition lhs1 (wagons : DataFrame) (b : Z) : expr :=
  as_expr (py_sum (map (fun n => PyExpr (Ref (xvar b n))) (N wagons))).

Definition lhs2 (boxes : DataFrame) (n : Z) : expr :=
  as_expr (py_sum (map (fun b => py_mul (weight boxes b) (xvar b n)) (B boxes))).

(** The model the construction cell is expected to leave behind. *)
Definition built (boxes wagons : DataFrame) : ConcreteModel :=
  mkModel "Wagon load balancing"
    (Some (product (B boxes) (N wagons), Binary))
    (Some NonNegativeReals)
    (Some (Ref Wvar, minimize))
    (Some (map (fun b => Rel (lhs1 wagons b) EQ (Num 1)) (B boxes)))
    (Some (map (fun n => Rel (lhs2 boxes n) LE (Ref Wvar)) (N wagons)))
    (fun _ => None).

(** A valuation seen as the values a solver loads into the model. *)
Definition loaded (v : valuation) : var -> option Q := fun r => Some (v r).

(** The pairs with a non-zero indicator, in the order the decoding cell
    visits them (wagon-major). *)
Definition nonzero_pairs (boxes wagons : DataFrame) (vals : var -> option Q)
  : list line :=
  flat_map (fun n =>
    flat_map (fun b =>
      match vals (xvar b n) with
      | Some q => if negb (Qeq_bool q 0) then [Assigned b n] else []
      | None => []
      end) (B boxes)) (N wagons).

(** The variables the cells after the solve ask for, in order. *)
Definition all_reads (boxes wagons : DataFrame) : list var :=
  flat_map (fun n => map (fun b => xvar b n) (B boxes)) (N wagons) ++ [Wvar].

(** A rational that is an integer. *)
Definition integral (q : Q) : Prop := exists z : Z, q == inject_Z z.

(** A valuation with another value for [model.W]. *)
Definition with_W (v : valuation) (w : Q) : valuation :=
  fun r => match r with Wvar => w | xvar b n => v (xvar b n) end.

(** The table with the weight of one box replaced. *)
Definition set_weight (boxes : DataFrame) (b0 : Z) (w : Q) : DataFrame :=
  map (fun row => if Z.eqb (fst row) b0 then (fst row, w) else row) boxes.

(** A valuation given by the list of (box, wagon) pairs set to 1 and the
    value of [W]. *)
Definition valuation_of (pairs : list (Z * Z)) (w : Q) : valuation :=
  fun r => match r with
           | Wvar => w
           | xvar b n =>
               if existsb (fun k => Z.eqb (fst k) b && Z.eqb (snd k) n) pairs
               then 1 else 0
           end.

(** Every way of giving each box of [Bs] one wagon of [Ns]. *)
Fixpoint assignments (Bs Ns : list Z) : list (list (Z * Z)) :=
  match Bs with
  | [] => [[]]
  | b :: Bs' => flat_map (fun n => map (cons (b, n)) (assignments Bs' Ns)) Ns
  end.

(** The smallest [W] an assignment can be completed with: its largest
    load, or 0. *)
Definition bottleneck (boxes wagons : DataFrame) (a : list (Z * Z)) : Q :=
  qmax_from 0 (loads boxes wagons (valuation_of a 0)).

(** The optimum by exhaustive search, for comparison with the solver. *)
Definition enumerated_optimum (boxes wagons : DataFrame) : option Q :=
  match map (bottleneck boxes wagons) (assignments (B boxes) (N wagons)) with
  | [] => None
  | q :: l => Some (fold_right Qmin q l)
  end.

(** A natural number as a rational. *)
Definition qnat (k : nat) : Q := inject_Z (Z.of_nat k).

(** The valuation that leaves wagon [n'] empty and agrees with [v] on the
    other wagons and on [W]. *)
Definition leaving_empty (n' : Z) (v : valuation) : valuation :=
  fun r => match r with
           | xvar b n => if Z.eqb n n' then 0 else v (xvar b n)
           | Wvar => v Wvar
           end.

(** Every box in wagon [n0], with [w] for [W]. *)
Definition all_in_wagon (n0 : Z) (w : Q) : valuation :=
  fun r => match r with
           | xvar b n => if Z.eqb n0 n then 1 else 0
           | Wvar => w
           end.

(** Whether every indicator the decoding cell asks for holds a value. *)
Definition indicators_loaded (boxes wagons : DataFrame)
    (vals : var -> option Q) : bool :=
  forallb (fun n =>
    forallb (fun b => match vals (xvar b n) with
                      | Some _ => true
                      | None => false
                      end) (B boxes)) (N wagons).

(** A line of the decoding cell. *)
Definition is_assigned (l : line) : Prop :=
  match l with
  | Assigned _ _ => True
  | Heaviest _ => False
  end.

(** The weight a printout gives wagon [n]: the sum of the weights of the
    boxes listed with it. *)
Definition printed_weight (boxes : DataFrame) (out : list line) (n : Z) : Q :=
  qsum (map (fun l => match l with
                      | Assigned b n' => if Z.eqb n' n then weight boxes b else 0
                      | Heaviest _ => 0
                      end) out).

(** The sheet with every weight multiplied by [c] (a change of unit). *)
Definition scale_weights (c : Q) (boxes : DataFrame) : DataFrame :=
  map (fun row => (fst row, c * snd row)) boxes.

(** An engine that answers the same thing whatever the model. *)
Definition engine_const (tc : TerminationCondition.t) (vals : var -> option Q)
  : ConcreteModel -> TerminationCondition.t * (var -> option Q) :=
  fun _ => (tc, vals).

End Model.

(** ** The data of the notebook *)

Module Data.
Import Pyomo Notebook Model.

(** Sheet [Boxes]: sixteen boxes and their weight in quintals. *)
Definition boxes : DataFrame :=
  map (fun r => (fst r, inject_Z (snd r)))
    [(1, 34); (2, 6); (3, 8); (4, 17); (5, 16); (6, 5); (7, 13); (8, 21);
     (9, 25); (10, 31); (11, 14); (12, 13); (13, 33); (14, 9); (15, 25);
     (16, 25)]%Z.

(** Sheet [Wagons]: three wagons of capacity 100. *)
Definition wagons : DataFrame :=
  map (fun r => (fst r, inject_Z (snd r))) [(1, 100); (2, 100); (3, 100)]%Z.

(** The assignment printed by the decoding cell in the saved run. *)
Definition printed : list (Z * Z) :=
  [(1, 1); (2, 1); (13, 1); (15, 1);
   (5, 2); (6, 2); (7, 2); (9, 2); (10, 2); (14, 2);
   (3, 3); (4, 3); (8, 3); (11, 3); (12, 3); (16, 3)]%Z.

Definition saved_run : valuation := valuation_of printed 99.

(** Small tables used as examples. *)
Definition one_box (w : Z) : DataFrame := [(1%Z, inject_Z w)].
Definition two_boxes (w1 w2 : Z) : DataFrame :=
  [(1%Z, inject_Z w1); (2%Z, inject_Z w2)].
Definition one_wagon (c : Z) : DataFrame := [(1%Z, inject_Z c)].
Definition two_wagons : DataFrame := [(1%Z, 100); (2%Z, 100)].


(** What the saved run shows on standard output. *)
Definition saved_output : list line :=
  [Assigned 1 1; Assigned 2 1; Assigned 13 1; Assigned 15 1;
   Assigned 5 2; Assigned 6 2; Assigned 7 2; Assigned 9 2; Assigned 10 2;
   Assigned 14 2;
   Assigned 3 3; Assigned 4 3; Assigned 8 3; Assigned 11 3; Assigned 12 3;
   Assigned 16 3;
   Heaviest 99]%Z.

(** The three wagons again, with a capacity no box fits in. *)
Definition tiny_wagons : DataFrame :=
  map (fun r => (fst r, inject_Z (snd r))) [(1, 1); (2, 1); (3, 1)]%Z.

End Data.

(** * Properties *)

Import Pyomo Notebook Model.

(** ** Sums *)

Section Sums.

Lemma qsum_app (l1 l2 : list Q) : qsum (l1 ++ l2) == qsum l1 + qsum l2.
Proof.
  induction l1 as [|a l1 IH]; simpl.
  - lra.
  - rewrite IH. lra.
Qed.

Lemma qsum_map_ext {A} (f g : A -> Q) (l : list A) :
  (forall a, In a l -> f a == g a) ->
  qsum (map f l) == qsum (map g l).
Proof.
  induction l as [|a l IH]; intros H; simpl.
  - reflexivity.
  - rewrite (H a (or_introl eq_refl)), IH; [reflexivity|].
    intros a' Ha'. apply H. now right.
Qed.

Lemma qsum_map_le {A} (f g : A -> Q) (l : list A) :
  (forall a, In a l -> f a <= g a) ->
  qsum (map f l) <= qsum (map g l).
Proof.
  induction l as [|a l IH]; intros H; simpl.
  - lra.
  - assert (f a <= g a) by (apply H; now left).
    assert (qsum (map f l) <= qsum (map g l))
      by (apply IH; intros a' Ha'; apply H; now right).
    lra.
Qed.

Lemma qsum_map_plus {A} (f g : A -> Q) (l : list A) :
  qsum (map (fun a => f a + g a) l) == qsum (map f l) + qsum (map g l).
Proof.
  induction l as [|a l IH]; simpl.
  - lra.
  - rewrite IH. lra.
Qed.

Lemma qsum_map_scal {A} (c : Q) (f : A -> Q) (l : list A) :
  qsum (map (fun a => c * f a) l) == c * qsum (map f l).
Proof.
  induction l as [|a l IH]; simpl.
  - lra.
  - rewrite IH. lra.
Qed.

Lemma qsum_map_zero {A} (l : list A) : qsum (map (fun _ => 0) l) == 0.
Proof.
  induction l as [|a l IH]; simpl; [reflexivity|]. rewrite IH. lra.
Qed.

(** Summing a table by rows or by columns. *)
Lemma qsum_exchange {A C} (f : A -> C -> Q) (la : list A) (lc : list C) :
  qsum (map (fun a => qsum (map (fun c => f a c) lc)) la)
  == qsum (map (fun c => qsum (map (fun a => f a c) la)) lc).
Proof.
  induction la as [|a la IH]; simpl.
  - now rewrite qsum_map_zero.
  - rewrite IH, <- qsum_map_plus. reflexivity.
Qed.

Lemma qmax_from_ge_floor (lo : Q) (l : list Q) : lo <= qmax_from lo l.
Proof.
  induction l as [|a l IH]; simpl.
  - lra.
  - eapply Qle_trans; [exact IH | apply Q.le_max_r].
Qed.

Lemma qmax_from_ge (lo : Q) (l : list Q) (q : Q) :
  In q l -> q <= qmax_from lo l.
Proof.
  induction l as [|a l IH]; simpl; [tauto|].
  intros [-> | Hin].
  - apply Q.le_max_l.
  - eapply Qle_trans; [apply IH, Hin | apply Q.le_max_r].
Qed.

(** The maximum is the floor or is attained. *)
Lemma qmax_from_attained (lo : Q) (l : list Q) :
  qmax_from lo l == lo \/ exists q, In q l /\ qmax_from lo l == q.
Proof.
  induction l as [|a l IH]; simpl.
  - left. reflexivity.
  - destruct (Q.max_spec a (qmax_from lo l)) as [[_ E] | [_ E]].
    + destruct IH as [E0 | (q & Hq & E1)].
      * left. now rewrite E.
      * right. exists q. split; [now right | now rewrite E].
    + right. exists a. split; [now left | exact E].
Qed.

(** Evaluation commutes with the builtin [sum]. *)
Lemma eval_py_add (v : valuation) (a b : pyobj) :
  eval v (as_expr (py_add a b)) = eval v (as_expr a) + eval v (as_expr b).
Proof. destruct a, b; reflexivity. Qed.

Lemma eval_fold_py_add (v : valuation) (l : list pyobj) (a : pyobj) :
  eval v (as_expr (fold_left py_add l a))
  == eval v (as_expr a) + qsum (map (fun o => eval v (as_expr o)) l).
Proof.
  revert a. induction l as [|o l IH]; intros a; simpl.
  - lra.
  - rewrite IH, eval_py_add. lra.
Qed.

Lemma eval_py_sum (v : valuation) (l : list pyobj) :
  eval v (as_expr (py_sum l)) == qsum (map (fun o => eval v (as_expr o)) l).
Proof. unfold py_sum. rewrite eval_fold_py_add. simpl. lra. Qed.

Lemma eval_lhs1 (wagons : DataFrame) (v : valuation) (b : Z) :
  eval v (lhs1 wagons b) == placed wagons v b.
Proof.
  unfold lhs1, placed. rewrite eval_py_sum, map_map. reflexivity.
Qed.

Lemma eval_lhs2 (boxes : DataFrame) (v : valuation) (n : Z) :
  eval v (lhs2 boxes n) == load boxes v n.
Proof.
  unfold lhs2, load. rewrite eval_py_sum, map_map. reflexivity.
Qed.

End Sums.

(** ** The construction cell *)

Section Build.
Variables boxes wagons : DataFrame.

Lemma getitem_index (s : DataFrame) (k : Z) :
  In k (index s) -> exists q, getitem s k = Some q.
Proof.
  induction s as [|[k' q] s IH]; simpl; [tauto|].
  intros [-> | Hin].
  - rewrite Z.eqb_refl. now exists q.
  - destruct (Z.eqb k' k); [now exists q | now apply IH].
Qed.

Lemma getitem_weight (k : Z) :
  In k (B boxes) -> getitem boxes k = Some (weight boxes k).
Proof.
  intros Hin. unfold weight.
  destruct (getitem_index boxes k Hin) as [q ->]. reflexivity.
Qed.

Lemma existsb_product (Bs Ns : list Z) (b n : Z) :
  In b Bs -> In n Ns ->
  existsb (fun k => Z.eqb (fst k) b && Z.eqb (snd k) n) (product Bs Ns) = true.
Proof.
  intros Hb Hn. apply existsb_exists. exists (b, n). split.
  - unfold product. apply in_flat_map. exists b. split; [exact Hb|].
    apply in_map_iff. now exists n.
  - simpl. now rewrite !Z.eqb_refl.
Qed.

Lemma in_product (Bs Ns : list Z) (b n : Z) :
  In (b, n) (product Bs Ns) <-> In b Bs /\ In n Ns.
Proof.
  unfold product. rewrite in_flat_map. split.
  - intros (b' & Hb & Hin). apply in_map_iff in Hin.
    destruct Hin as (n' & E & Hn). inversion E; subst. now split.
  - intros [Hb Hn]. exists b. split; [exact Hb|].
    apply in_map_iff. now exists n.
Qed.

(** A model whose [x] is declared over the product is left unchanged by
    the lookups [model.x[b,n]] of a generator over known labels. *)
Lemma x_getitem_ok (m : ConcreteModel) (d : domain) (b n : Z) :
  x m = Some (product (B boxes) (N wagons), d) ->
  In b (B boxes) -> In n (N wagons) ->
  x_getitem b n m = (inr (xvar b n), m).
Proof.
  intros Hx Hb Hn. unfold x_getitem, Py.bind, Py.get. rewrite Hx.
  now rewrite existsb_product.
Qed.

Lemma gen_constraint1 (m : ConcreteModel) (d : domain) (b : Z) (l : list Z) :
  x m = Some (product (B boxes) (N wagons), d) ->
  In b (B boxes) -> incl l (N wagons) ->
  Py.gen l (fun n => (v <- x_getitem b n ;; Py.ret (PyExpr (Ref v)))%py) m
  = (inr (map (fun n => PyExpr (Ref (xvar b n))) l), m).
Proof.
  intros Hx Hb. induction l as [|n l IH]; intros Hl; simpl.
  - reflexivity.
  - unfold Py.bind at 1. unfold Py.bind at 1.
    rewrite (x_getitem_ok m d b n Hx Hb (Hl n (or_introl eq_refl))).
    unfold Py.ret at 1. unfold Py.bind at 1.
    rewrite IH by (intros n' Hn'; apply Hl; now right).
    reflexivity.
Qed.

Lemma gen_constraint2 (m : ConcreteModel) (d : domain) (n : Z) (l : list Z) :
  x m = Some (product (B boxes) (N wagons), d) ->
  In n (N wagons) -> incl l (B boxes) ->
  Py.gen l (fun b => (w <- wb_getitem boxes b ;;
                      v <- x_getitem b n ;;
                      Py.ret (py_mul w v))%py) m
  = (inr (map (fun b => py_mul (weight boxes b) (xvar b n)) l), m).
Proof.
  intros Hx Hn. induction l as [|b l IH]; intros Hl; simpl.
  - reflexivity.
  - assert (Hb : In b (B boxes)) by (apply Hl; now left).
    unfold Py.bind at 1. unfold Py.bind at 1.
    unfold wb_getitem at 1, wb. rewrite (getitem_weight b Hb).
    unfold Py.ret at 1. unfold Py.bind at 1.
    rewrite (x_getitem_ok m d b n Hx Hb Hn).
    unfold Py.ret at 1. unfold Py.bind at 1.
    rewrite IH by (intros b' Hb'; apply Hl; now right).
    reflexivity.
Qed.

(** Once an expression has entered the running sum it stays one. *)
Lemma fold_py_add_expr (l : list pyobj) (e : expr) :
  exists e', fold_left py_add l (PyExpr e) = PyExpr e'.
Proof.
  revert e. induction l as [|o l IH]; intros e; simpl.
  - now exists e.
  - destruct o; apply IH.
Qed.

Lemma py_sum_vars_expr (b : Z) (l : list Z) :
  l <> [] ->
  exists e, py_sum (map (fun n => PyExpr (Ref (xvar b n))) l) = PyExpr e.
Proof.
  destruct l as [|n l]; [congruence|]. intros _.
  unfold py_sum. simpl. apply fold_py_add_expr.
Qed.

Lemma constraint1_expr_ok (m : ConcreteModel) (d : domain) (b : Z) :
  x m = Some (product (B boxes) (N wagons), d) ->
  In b (B boxes) -> N wagons <> [] ->
  constraint1_expr wagons b m = (inr (PyRel (Rel (lhs1 wagons b) EQ (Num 1))), m).
Proof.
  intros Hx Hb HN. unfold constraint1_expr. unfold Py.bind at 1.
  rewrite (gen_constraint1 m d b (N wagons) Hx Hb (incl_refl _)).
  unfold lhs1. destruct (py_sum_vars_expr b (N wagons) HN) as [e ->].
  reflexivity.
Qed.

Lemma constraint1_expr_empty (m : ConcreteModel) (b : Z) :
  N wagons = [] ->
  constraint1_expr wagons b m = (inr (PyBool false), m).
Proof.
  intros HN. unfold constraint1_expr. rewrite HN. reflexivity.
Qed.

Lemma constraint2_expr_ok (m : ConcreteModel) (d : domain) (n : Z) :
  x m = Some (product (B boxes) (N wagons), d) ->
  In n (N wagons) ->
  constraint2_expr boxes n m = (inr (PyRel (Rel (lhs2 boxes n) LE (Ref Wvar))), m).
Proof.
  intros Hx Hn. unfold constraint2_expr. unfold Py.bind at 1.
  rewrite (gen_constraint2 m d n (B boxes) Hx Hn (incl_refl _)).
  unfold lhs2, Py.ret, py_le.
  destruct (py_sum _); reflexivity.
Qed.

End Build.

Section BuildLoops.
Variables boxes wagons : DataFrame.

Lemma loop_constraint1 (l : list Z) :
  N wagons <> [] -> incl l (B boxes) ->
  forall nm d w o cs c2 vals,
    Py.for_ l (fun b =>
      (c <- constraint1_expr wagons b ;;
       ConstraintList_add "constraint1" constraint1 set_constraint1 c)%py)
      (mkModel nm (Some (product (B boxes) (N wagons), d)) w o (Some cs) c2 vals)
    = (inr tt,
       mkModel nm (Some (product (B boxes) (N wagons), d)) w o
         (Some (cs ++ map (fun b => Rel (lhs1 wagons b) EQ (Num 1)) l)) c2 vals).
Proof.
  intros HN. induction l as [|b l IH]; intros Hl nm d w o cs c2 vals; simpl.
  - now rewrite app_nil_r.
  - unfold Py.bind at 1. unfold Py.bind at 1.
    rewrite (constraint1_expr_ok boxes wagons
               (mkModel nm (Some (product (B boxes) (N wagons), d)) w o
                        (Some cs) c2 vals) d b eq_refl
               (Hl b (or_introl eq_refl)) HN).
    unfold ConstraintList_add at 1. unfold Py.bind at 1. unfold Py.get at 1.
    cbn [constraint1]. unfold Py.modify at 1, set_constraint1.
    cbn [name x W objective constraint2 value_of].
    rewrite IH by (intros b' Hb'; apply Hl; now right).
    now rewrite <- app_assoc.
Qed.

Lemma loop_constraint2 (l : list Z) :
  incl l (N wagons) ->
  forall nm d w o c1 cs vals,
    Py.for_ l (fun n =>
      (c <- constraint2_expr boxes n ;;
       ConstraintList_add "constraint2" constraint2 set_constraint2 c)%py)
      (mkModel nm (Some (product (B boxes) (N wagons), d)) w o c1 (Some cs) vals)
    = (inr tt,
       mkModel nm (Some (product (B boxes) (N wagons), d)) w o c1
         (Some (cs ++ map (fun n => Rel (lhs2 boxes n) LE (Ref Wvar)) l)) vals).
Proof.
  induction l as [|n l IH]; intros Hl nm d w o c1 cs vals; simpl.
  - now rewrite app_nil_r.
  - unfold Py.bind at 1. unfold Py.bind at 1.
    rewrite (constraint2_expr_ok boxes wagons
               (mkModel nm (Some (product (B boxes) (N wagons), d)) w o c1
                        (Some cs) vals) d n eq_refl
               (Hl n (or_introl eq_refl))).
    unfold ConstraintList_add at 1. unfold Py.bind at 1. unfold Py.get at 1.
    cbn [constraint2]. unfold Py.modify at 1, set_constraint2.
    cbn [name x W objective constraint1 value_of].
    rewrite IH by (intros n' Hn'; apply Hl; now right).
    now rewrite <- app_assoc.
Qed.

(** With at least one wagon, or with no box at all, the cell runs to its
    end and leaves the expected model. *)
Lemma build_cell_prefix (k : Py.M ConcreteModel unit) :
  (Py.modify (set_x (product (B boxes) (N wagons), Binary)) ;;
   Py.modify (set_W NonNegativeReals) ;;
   Py.modify (set_objective (Ref Wvar, minimize)) ;;
   Py.modify (set_constraint1 []) ;; k)%py
    (new_model "Wagon load balancing")
  = k (mkModel "Wagon load balancing"
         (Some (product (B boxes) (N wagons), Binary)) (Some NonNegativeReals)
         (Some (Ref Wvar, minimize)) (Some []) None (fun _ => None)).
Proof. reflexivity. Qed.

Lemma build_cell_middle (k : Py.M ConcreteModel unit) nm xs w o c1 c2 vals :
  (Py.modify (set_constraint2 []) ;; k)%py (mkModel nm xs w o c1 c2 vals)
  = k (mkModel nm xs w o c1 (Some []) vals).
Proof. reflexivity. Qed.

Lemma bind_ok {S A C} (c : Py.M S A) (k : A -> Py.M S C) (s s' : S) (a : A) :
  c s = (inr a, s') -> Py.bind c k s = k a s'.
Proof. intros E. unfold Py.bind. now rewrite E. Qed.

Lemma bind_raise {S A C} (c : Py.M S A) (k : A -> Py.M S C) (s s' : S) (e : exn) :
  c s = (inl e, s') -> Py.bind c k s = (inl e, s').
Proof. intros E. unfold Py.bind. now rewrite E. Qed.

(** With at least one wagon, or with no box at all, the cell runs to its
    end and leaves the expected model. *)
Lemma build_model_ok :
  N wagons <> [] \/ B boxes = [] ->
  build_model boxes wagons = inr (built boxes wagons).
Proof.
  intros H. unfold build_model, build_cell.
  rewrite build_cell_prefix.
  assert (L1 : Py.for_ (B boxes) (fun b =>
      (c <- constraint1_expr wagons b ;;
       ConstraintList_add "constraint1" constraint1 set_constraint1 c)%py)
      (mkModel "Wagon load balancing"
         (Some (product (B boxes) (N wagons), Binary)) (Some NonNegativeReals)
         (Some (Ref Wvar, minimize)) (Some []) None (fun _ => None))
    = (inr tt,
       mkModel "Wagon load balancing"
         (Some (product (B boxes) (N wagons), Binary)) (Some NonNegativeReals)
         (Some (Ref Wvar, minimize))
         (Some (map (fun b => Rel (lhs1 wagons b) EQ (Num 1)) (B boxes)))
         None (fun _ => None))).
  { destruct H as [HN | HB].
    - now rewrite (loop_constraint1 (B boxes) HN (incl_refl _)).
    - rewrite HB. reflexivity. }
  rewrite (bind_ok _ _ _ _ _ L1), build_cell_middle.
  rewrite (loop_constraint2 (N wagons) (incl_refl _)).
  reflexivity.
Qed.

(** With boxes but no wagon, the first [sum(...) == 1] is the Python
    comparison [0 == 1], and [ConstraintList.add] rejects it. *)
Lemma build_model_no_wagon :
  N wagons = [] -> B boxes <> [] ->
  build_model boxes wagons
  = inl (ValueError "Invalid constraint expression: trivial Boolean").
Proof.
  intros HN HB. unfold build_model, build_cell.
  rewrite build_cell_prefix.
  destruct (B boxes) as [|b l] eqn:EB; [congruence|].
  cbn [Py.for_].
  erewrite bind_raise; [reflexivity|].
  erewrite bind_raise; [reflexivity|].
  erewrite bind_ok by (apply constraint1_expr_empty; exact HN).
  reflexivity.
Qed.

End BuildLoops.

(** ** What the built model means *)

Section Meaning.
Variables boxes wagons : DataFrame.

(** The feasible valuations of the built model, constraint by constraint. *)
Lemma feasible_built (v : valuation) :
  feasible (built boxes wagons) v <->
  (forall b n, In b (B boxes) -> In n (N wagons) ->
               v (xvar b n) == 0 \/ v (xvar b n) == 1) /\
  0 <= v Wvar /\
  (forall b, In b (B boxes) -> placed wagons v b == 1) /\
  (forall n, In n (N wagons) -> load boxes v n <= v Wvar).
Proof.
  unfold feasible, built.
  cbn [x W constraint1 constraint2 constraints_of in_domain].
  rewrite !Forall_forall. split.
  - intros (Hx & HW & H1 & H2). repeat split.
    + intros b n Hb Hn. apply Hx. now apply in_product.
    + exact HW.
    + intros b Hb. rewrite <- eval_lhs1.
      apply (H1 (Rel (lhs1 wagons b) EQ (Num 1))).
      apply in_map_iff. now exists b.
    + intros n Hn. rewrite <- eval_lhs2.
      apply (H2 (Rel (lhs2 boxes n) LE (Ref Wvar))).
      apply in_map_iff. now exists n.
  - intros (Hx & HW & H1 & H2). repeat split.
    + intros b n Hin. apply in_product in Hin. now apply Hx.
    + exact HW.
    + intros c Hc. apply in_map_iff in Hc. destruct Hc as (b & <- & Hb).
      unfold satisfies. cbn [rel lhs rhs eval]. rewrite eval_lhs1. now apply H1.
    + intros c Hc. apply in_map_iff in Hc. destruct Hc as (n & <- & Hn).
      unfold satisfies. cbn [rel lhs rhs eval]. rewrite eval_lhs2. now apply H2.
Qed.

Lemma objective_value_built (v : valuation) :
  objective_value (built boxes wagons) v = v Wvar.
Proof. reflexivity. Qed.

Lemma optimal_built (v : valuation) :
  optimal (built boxes wagons) v <->
  feasible (built boxes wagons) v /\
  forall v', feasible (built boxes wagons) v' -> v Wvar <= v' Wvar.
Proof. reflexivity. Qed.

End Meaning.

(** ** Indicators that sum to one *)

Section Indicators.

Lemma qsum_binary_nonneg {A} (f : A -> Q) (l : list A) :
  (forall a, In a l -> f a == 0 \/ f a == 1) -> 0 <= qsum (map f l).
Proof.
  induction l as [|a l IH]; intros H; simpl.
  - lra.
  - assert (0 <= qsum (map f l)) by (apply IH; intros; apply H; now right).
    destruct (H a (or_introl eq_refl)) as [E | E]; rewrite E; lra.
Qed.

Lemma qsum_binary_zero {A} (f : A -> Q) (l : list A) :
  (forall a, In a l -> f a == 0 \/ f a == 1) ->
  qsum (map f l) == 0 -> forall a, In a l -> f a == 0.
Proof.
  induction l as [|a l IH]; intros H E a' Ha'; simpl in *; [tauto|].
  assert (Hl : forall a0, In a0 l -> f a0 == 0 \/ f a0 == 1)
    by (intros; apply H; now right).
  pose proof (qsum_binary_nonneg f l Hl) as Hnn.
  destruct (H a (or_introl eq_refl)) as [Ea | Ea]; rewrite Ea in E.
  - destruct Ha' as [<- | Hin]; [exact Ea|].
    apply IH; [exact Hl | lra | exact Hin].
  - lra.
Qed.

(** Exactly one position of the list carries the 1. *)
Lemma qsum_binary_one {A} (f : A -> Q) (l : list A) :
  (forall a, In a l -> f a == 0 \/ f a == 1) ->
  qsum (map f l) == 1 ->
  exists l1 a l2, l = l1 ++ a :: l2 /\ f a == 1 /\
                  forall a', In a' (l1 ++ l2) -> f a' == 0.
Proof.
  induction l as [|a l IH]; intros H E; simpl in *.
  - lra.
  - assert (Hl : forall a0, In a0 l -> f a0 == 0 \/ f a0 == 1)
      by (intros; apply H; now right).
    destruct (H a (or_introl eq_refl)) as [Ea | Ea]; rewrite Ea in E.
    + destruct (IH Hl) as (l1 & a1 & l2 & -> & E1 & Hz); [lra|].
      exists (a :: l1), a1, l2. repeat split; [exact E1|].
      intros a' [<- | Hin]; [exact Ea | now apply Hz].
    + exists [], a, l. repeat split; [exact Ea|].
      simpl. apply qsum_binary_zero; [exact Hl | lra].
Qed.

End Indicators.

(** ** The cells after the solve *)

Section Decode.
Variables boxes wagons : DataFrame.
Variable m : ConcreteModel.

Lemma pyo_value_var_some (r : var) (q : Q) (s : io) :
  value_of m r = Some q ->
  pyo_value m (Ref r) s = (inr q, log_read r s).
Proof.
  intros E. cbn [pyo_value]. unfold Py.bind, Py.modify. now rewrite E.
Qed.

Lemma pyo_value_var_none (r : var) (s : io) :
  value_of m r = None ->
  pyo_value m (Ref r) s
  = (inl (ValueError "No value for uninitialized NumericValue object"),
     log_read r s).
Proof.
  intros E. cbn [pyo_value]. unfold Py.bind, Py.modify. now rewrite E.
Qed.

(** One wagon of the decoding loop. *)
Lemma decode_row (n : Z) (l : list Z) :
  (forall b, In b l -> value_of m (xvar b n) <> None) ->
  forall s,
    Py.for_ l (fun b =>
      (q <- pyo_value m (Ref (xvar b n)) ;;
       if negb (Qeq_bool q 0) then print (Assigned b n) else Py.ret tt)%py) s
    = (inr tt,
       mkIO (reads s ++ map (fun b => xvar b n) l)
            (stdout s ++
             flat_map (fun b =>
               match value_of m (xvar b n) with
               | Some q => if negb (Qeq_bool q 0) then [Assigned b n] else []
               | None => []
               end) l)).
Proof.
  induction l as [|b l IH]; intros H s.
  - destruct s. cbn. now rewrite !app_nil_r.
  - cbn [Py.for_ map flat_map].
    destruct (value_of m (xvar b n)) as [q|] eqn:E;
      [|now destruct (H b (or_introl eq_refl))].
    assert (Hl : forall b', In b' l -> value_of m (xvar b' n) <> None)
      by (intros; apply H; now right).
    unfold Py.bind at 1.
    rewrite (bind_ok _ _ _ _ _ (pyo_value_var_some (xvar b n) q s E)).
    destruct (negb (Qeq_bool q 0)).
    + unfold print at 1, Py.modify at 1. rewrite (IH Hl).
      cbn [reads stdout log_read]. now rewrite <- !app_assoc.
    + unfold Py.ret at 1. rewrite (IH Hl).
      cbn [reads stdout log_read]. now rewrite <- !app_assoc.
Qed.

Lemma decode_rows (l : list Z) :
  (forall b n, In b (B boxes) -> In n l -> value_of m (xvar b n) <> None) ->
  forall s,
    Py.for_ l (fun n =>
      Py.for_ (B boxes) (fun b =>
        (q <- pyo_value m (Ref (xvar b n)) ;;
         if negb (Qeq_bool q 0) then print (Assigned b n) else Py.ret tt)%py)) s
    = (inr tt,
       mkIO (reads s ++ flat_map (fun n => map (fun b => xvar b n) (B boxes)) l)
            (stdout s ++
             flat_map (fun n =>
               flat_map (fun b =>
                 match value_of m (xvar b n) with
                 | Some q => if negb (Qeq_bool q 0) then [Assigned b n] else []
                 | None => []
                 end) (B boxes)) l)).
Proof.
  induction l as [|n l IH]; intros H s.
  - destruct s. cbn. now rewrite !app_nil_r.
  - cbn [Py.for_ flat_map].
    erewrite bind_ok;
      [|apply decode_row; intros b Hb; apply H; [exact Hb | now left]].
    rewrite IH by (intros b n' Hb Hn'; apply H; [exact Hb | now right]).
    cbn [reads stdout]. now rewrite <- !app_assoc.
Qed.

(** With a value on every indicator the decoding cell cannot fail: it asks
    for every indicator, wagon by wagon, and prints the non-zero ones. *)
Lemma decode_cell_ok (s : io) :
  (forall b n, In b (B boxes) -> In n (N wagons) ->
               value_of m (xvar b n) <> None) ->
  decode_cell boxes wagons m s
  = (inr tt,
     mkIO (reads s ++ flat_map (fun n => map (fun b => xvar b n) (B boxes)) (N wagons))
          (stdout s ++ nonzero_pairs boxes wagons (value_of m))).
Proof.
  intros H. unfold decode_cell. now rewrite decode_rows.
Qed.

End Decode.

(** ** The optimum of the built model *)

Section Optimum.
Variables boxes wagons : DataFrame.

Lemma qmax_from_lub (lo u : Q) (l : list Q) :
  lo <= u -> (forall q, In q l -> q <= u) -> qmax_from lo l <= u.
Proof.
  intros Hlo. induction l as [|a l IH]; intros H; simpl.
  - exact Hlo.
  - apply Q.max_lub.
    + apply H. now left.
    + apply IH. intros q Hq. apply H. now right.
Qed.

Lemma in_loads (v : valuation) (q : Q) :
  In q (loads boxes wagons v) <-> exists n, In n (N wagons) /\ q = load boxes v n.
Proof.
  unfold loads. rewrite in_map_iff. split; intros (n & H1 & H2).
  - exists n. now split.
  - exists n. now split.
Qed.

(** Changing [W] alone keeps a valuation feasible as long as the new value
    is non-negative and bounds every load. *)
Lemma feasible_with_W (v : valuation) (w : Q) :
  feasible (built boxes wagons) v ->
  0 <= w -> (forall n, In n (N wagons) -> load boxes v n <= w) ->
  feasible (built boxes wagons) (with_W v w).
Proof.
  rewrite !feasible_built. intros (Hx & _ & H1 & _) Hw Hl.
  repeat split.
  - intros b n Hb Hn. exact (Hx b n Hb Hn).
  - exact Hw.
  - intros b Hb. exact (H1 b Hb).
  - intros n Hn. exact (Hl n Hn).
Qed.

Lemma feasible_bounds (v : valuation) :
  feasible (built boxes wagons) v ->
  qmax_from 0 (loads boxes wagons v) <= v Wvar.
Proof.
  rewrite feasible_built. intros (_ & HW & _ & H2).
  apply qmax_from_lub; [exact HW|].
  intros q Hq. apply in_loads in Hq. destruct Hq as (n & Hn & ->).
  now apply H2.
Qed.

(** At an optimum [W] is the largest load, or 0 if that is larger. *)
Lemma optimal_value (v : valuation) :
  optimal (built boxes wagons) v ->
  v Wvar == qmax_from 0 (loads boxes wagons v).
Proof.
  intros Hopt. apply optimal_built in Hopt. destruct Hopt as [Hf Hmin].
  apply Qle_antisym; [|now apply feasible_bounds].
  apply (Hmin (with_W v (qmax_from 0 (loads boxes wagons v)))).
  apply feasible_with_W; [exact Hf | apply qmax_from_ge_floor |].
  intros n Hn. apply qmax_from_ge. apply in_loads. now exists n.
Qed.

Lemma load_nonneg (v : valuation) (n : Z) :
  (forall b, In b (B boxes) -> 0 <= weight boxes b) ->
  (forall b, In b (B boxes) -> v (xvar b n) == 0 \/ v (xvar b n) == 1) ->
  0 <= load boxes v n.
Proof.
  intros Hw Hx. unfold load.
  rewrite <- (qsum_map_zero (B boxes)).
  apply qsum_map_le. intros b Hb.
  specialize (Hw b Hb).
  destruct (Hx b Hb) as [E | E]; rewrite E; lra.
Qed.

(** Every box being placed once, the loads add up to the total weight. *)
Lemma loads_total (v : valuation) :
  feasible (built boxes wagons) v ->
  qsum (loads boxes wagons v) == qsum (map (weight boxes) (B boxes)).
Proof.
  rewrite feasible_built. intros (_ & _ & H1 & _).
  unfold loads, load.
  rewrite <- (qsum_exchange (fun b n => weight boxes b * v (xvar b n))
                (B boxes) (N wagons)).
  apply qsum_map_ext. intros b Hb.
  rewrite qsum_map_scal. fold (placed wagons v b). rewrite (H1 b Hb). lra.
Qed.

Lemma integral_plus (p q : Q) : integral p -> integral q -> integral (p + q).
Proof.
  intros [a Ha] [b Hb]. exists (a + b)%Z.
  rewrite inject_Z_plus, Ha, Hb. reflexivity.
Qed.

Lemma integral_0 : integral 0.
Proof. now exists 0%Z. Qed.


Lemma load_integral (v : valuation) (n : Z) :
  (forall b, In b (B boxes) -> integral (weight boxes b)) ->
  (forall b, In b (B boxes) -> v (xvar b n) == 0 \/ v (xvar b n) == 1) ->
  integral (load boxes v n).
Proof.
  intros Hw Hx. unfold load.
  induction (B boxes) as [|b l IH]; simpl.
  - apply integral_0.
  - apply integral_plus.
    + destruct (Hw b (or_introl eq_refl)) as [z Hz].
      destruct (Hx b (or_introl eq_refl)) as [E | E].
      * exists 0%Z. rewrite E. unfold inject_Z. lra.
      * exists z. rewrite E, Hz. lra.
    + apply IH; intros; [apply Hw | apply Hx]; now right.
Qed.

(** What the cell leaves, when it does not raise, is [built]. *)
Lemma build_model_inr (m : ConcreteModel) :
  build_model boxes wagons = inr m -> m = built boxes wagons.
Proof.
  intros E.
  destruct (N wagons) as [|n l] eqn:EN.
  - destruct (B boxes) as [|b l'] eqn:EB.
    + rewrite build_model_ok in E by (now right). now inversion E.
    + rewrite build_model_no_wagon in E; [discriminate | exact EN |].
      rewrite EB. discriminate.
  - rewrite build_model_ok in E; [now inversion E|].
    left. rewrite EN. discriminate.
Qed.

End Optimum.

(** ** Checking a given valuation *)

Section Checking.

Lemma in_domainb_sound (d : domain) (q : Q) :
  in_domainb d q = true -> in_domain d q.
Proof.
  destruct d; simpl.
  - rewrite orb_true_iff, !Qeq_bool_iff. tauto.
  - now rewrite Qle_bool_iff.
Qed.

Lemma satisfiesb_sound (v : valuation) (c : relational) :
  satisfiesb v c = true -> satisfies v c.
Proof.
  unfold satisfiesb, satisfies. destruct (rel c).
  - now rewrite Qeq_bool_iff.
  - now rewrite Qle_bool_iff.
Qed.

Lemma feasibleb_sound (m : ConcreteModel) (v : valuation) :
  feasibleb m v = true -> feasible m v.
Proof.
  unfold feasibleb, feasible. rewrite !andb_true_iff.
  intros [[[Hx HW] H1] H2]. repeat split.
  - destruct (x m) as [[idx d]|]; [|exact I].
    intros b n Hin. rewrite forallb_forall in Hx.
    apply in_domainb_sound. exact (Hx (b, n) Hin).
  - destruct (W m); [now apply in_domainb_sound | exact I].
  - apply Forall_forall. intros c Hc. rewrite forallb_forall in H1.
    apply satisfiesb_sound. now apply H1.
  - apply Forall_forall. intros c Hc. rewrite forallb_forall in H2.
    apply satisfiesb_sound. now apply H2.
Qed.

End Checking.

(** ** The instance of the notebook *)

Section SavedRun.

Lemma weight_integral (boxes : DataFrame) :
  Forall (fun row => integral (snd row)) boxes ->
  forall b, integral (weight boxes b).
Proof.
  intros H b. unfold weight.
  induction boxes as [|[k q] l IH]; simpl.
  - apply integral_0.
  - inversion H as [|? ? Hq Hl]; subst.
    destruct (Z.eqb k b); [exact Hq | now apply IH].
Qed.

Lemma table_of_integers (rows : list (Z * Z)) :
  Forall (fun row => integral (snd row))
         (map (fun r => (fst r, inject_Z (snd r))) rows).
Proof.
  induction rows as [|r rows IH]; simpl; constructor.
  - now exists (snd r).
  - exact IH.
Qed.

Lemma data_weights_integral (b : Z) : integral (weight Data.boxes b).
Proof. apply weight_integral, table_of_integers. Qed.

Lemma data_total : qsum (map (weight Data.boxes) (B Data.boxes)) == 295.
Proof. vm_compute. reflexivity. Qed.

Lemma saved_run_feasible : feasible (built Data.boxes Data.wagons) Data.saved_run.
Proof. apply feasibleb_sound. vm_compute. reflexivity. Qed.

(** Three integer loads that add up to 295 cannot all stay below 99. *)
Lemma data_lower_bound (v : valuation) :
  feasible (built Data.boxes Data.wagons) v -> 99 <= v Wvar.
Proof.
  intros Hf. pose proof (loads_total _ _ _ Hf) as Htot.
  rewrite data_total in Htot.
  apply feasible_built in Hf. destruct Hf as (Hx & _ & _ & H2).
  assert (Hint : forall n, In n (N Data.wagons) ->
                           integral (load Data.boxes v n)).
  { intros n Hn. apply load_integral.
    - intros b _. apply data_weights_integral.
    - intros b Hb. now apply Hx. }
  change (loads Data.boxes Data.wagons v)
    with [load Data.boxes v 1; load Data.boxes v 2; load Data.boxes v 3] in Htot.
  assert (I1 : In 1%Z (N Data.wagons)) by (simpl; tauto).
  assert (I2 : In 2%Z (N Data.wagons)) by (simpl; tauto).
  assert (I3 : In 3%Z (N Data.wagons)) by (simpl; tauto).
  destruct (Hint _ I1) as [z1 E1], (Hint _ I2) as [z2 E2], (Hint _ I3) as [z3 E3].
  pose proof (H2 _ I1) as L1. pose proof (H2 _ I2) as L2. pose proof (H2 _ I3) as L3.
  rewrite E1 in L1. rewrite E2 in L2. rewrite E3 in L3.
  simpl in Htot. rewrite E1, E2, E3 in Htot.
  destruct (Qlt_le_dec (v Wvar) 99) as [Hlt | Hge]; [exfalso | exact Hge].
  assert (B1 : inject_Z z1 < inject_Z 99) by (eapply Qle_lt_trans; eauto).
  assert (B2 : inject_Z z2 < inject_Z 99) by (eapply Qle_lt_trans; eauto).
  assert (B3 : inject_Z z3 < inject_Z 99) by (eapply Qle_lt_trans; eauto).
  rewrite <- Zlt_Qlt in B1, B2, B3.
  assert (S : inject_Z (z1 + (z2 + (z3 + 0))) == inject_Z 295).
  { rewrite !inject_Z_plus. exact Htot. }
  apply (proj1 (inject_Z_injective _ _)) in S. lia.
Qed.

Lemma saved_run_optimal : optimal (built Data.boxes Data.wagons) Data.saved_run.
Proof.
  apply optimal_built. split; [exact saved_run_feasible|].
  intros v' Hf'. change (Data.saved_run Wvar) with 99.
  now apply data_lower_bound.
Qed.

Lemma data_build : build_model Data.boxes Data.wagons
                   = inr (built Data.boxes Data.wagons).
Proof. apply build_model_ok. left. discriminate. Qed.

End SavedRun.

(** ** The model the notebook builds *)

Section Contents.

Lemma NoDup_pairs_with (b : Z) (l : list Z) :
  NoDup l -> NoDup (map (fun n => (b, n)) l).
Proof.
  induction 1 as [|n l Hn Hl IH]; simpl; constructor.
  - intros Hin. apply in_map_iff in Hin. destruct Hin as (n' & E & Hn').
    inversion E; subst. contradiction.
  - exact IH.
Qed.

Lemma NoDup_product (Bs Ns : list Z) :
  NoDup Bs -> NoDup Ns -> NoDup (product Bs Ns).
Proof.
  intros HB HN. induction HB as [|b l Hb Hl IH].
  - constructor.
  - change (product (b :: l) Ns)
      with (map (fun n => (b, n)) Ns ++ product l Ns).
    apply NoDup_app.
    + now apply NoDup_pairs_with.
    + exact IH.
    + intros [b' n'] H1 H2. apply in_map_iff in H1.
      destruct H1 as (n & E & _). inversion E; subst.
      apply in_product in H2. tauto.
Qed.

(** C1: when the construction cell succeeds the model holds exactly one
    binary indicator [x[b,n]] per (box, wagon) pair, the non-negative
    continuous [W], the objective "minimize [W]", one constraint
    [sum_n x[b,n] == 1] per box in [constraint1], one constraint
    [sum_b wb[b]*x[b,n] <= W] per wagon in [constraint2], and nothing else
    restricts its feasible valuations. *)
Theorem build_model_contents (boxes wagons : DataFrame) (m : ConcreteModel) :
  build_model boxes wagons = inr m ->
  (exists idx, x m = Some (idx, Binary) /\
     (forall b n, In (b, n) idx <-> In b (B boxes) /\ In n (N wagons)) /\
     (NoDup (B boxes) -> NoDup (N wagons) -> NoDup idx)) /\
  W m = Some NonNegativeReals /\
  objective m = Some (Ref Wvar, minimize) /\
  constraint1 m
  = Some (map (fun b => Rel (lhs1 wagons b) EQ (Num 1)) (B boxes)) /\
  constraint2 m
  = Some (map (fun n => Rel (lhs2 boxes n) LE (Ref Wvar)) (N wagons)) /\
  (forall v b, eval v (lhs1 wagons b) == qsum (map (fun n => v (xvar b n)) (N wagons))) /\
  (forall v n, eval v (lhs2 boxes n)
               == qsum (map (fun b => weight boxes b * v (xvar b n)) (B boxes))) /\
  (forall v, feasible m v <->
     (forall b n, In b (B boxes) -> In n (N wagons) ->
                  v (xvar b n) == 0 \/ v (xvar b n) == 1) /\
     0 <= v Wvar /\
     (forall b, In b (B boxes) ->
                qsum (map (fun n => v (xvar b n)) (N wagons)) == 1) /\
     (forall n, In n (N wagons) ->
                qsum (map (fun b => weight boxes b * v (xvar b n)) (B boxes))
                <= v Wvar)).
Proof.
  intros E. apply build_model_inr in E. subst m.
  split; [|split; [|split; [|split; [|split; [|split; [|split]]]]]].
  - exists (product (B boxes) (N wagons)). split; [reflexivity|]. split.
    + intros b n. apply in_product.
    + apply NoDup_product.
  - reflexivity.
  - reflexivity.
  - reflexivity.
  - reflexivity.
  - intros v b. apply eval_lhs1.
  - intros v n. apply eval_lhs2.
  - intros v. apply feasible_built.
Qed.

Lemma build_model_contents_witness :
  build_model Data.boxes Data.wagons = inr (built Data.boxes Data.wagons) /\
  constraint1 (built Data.boxes Data.wagons)
  = Some (map (fun b => Rel (lhs1 Data.wagons b) EQ (Num 1)) (B Data.boxes)).
Proof.
  split.
  - exact data_build.
  - exact (proj1 (proj2 (proj2 (proj2
             (build_model_contents Data.boxes Data.wagons _ data_build))))).
Defined.

End Contents.

(** ** What the decoding cell prints *)

Section Printed.
Variables boxes wagons : DataFrame.

Lemma in_nonzero_pairs (vals : var -> option Q) (b n : Z) :
  In (Assigned b n) (nonzero_pairs boxes wagons vals) <->
  In b (B boxes) /\ In n (N wagons) /\
  exists q, vals (xvar b n) = Some q /\ ~ q == 0.
Proof.
  unfold nonzero_pairs. rewrite in_flat_map. split.
  - intros (n' & Hn' & Hin). apply in_flat_map in Hin.
    destruct Hin as (b' & Hb' & Hin).
    destruct (vals (xvar b' n')) as [q|] eqn:E; [|destruct Hin].
    destruct (Qeq_bool q 0) eqn:Eq; simpl in Hin; [destruct Hin|].
    destruct Hin as [Hin | []]. inversion Hin; subst.
    repeat split; try assumption.
    exists q. split; [exact E | now apply Qeq_bool_neq].
  - intros (Hb & Hn & q & E & Hq). exists n. split; [exact Hn|].
    apply in_flat_map. exists b. split; [exact Hb|]. rewrite E.
    destruct (Qeq_bool q 0) eqn:Eq.
    + apply Qeq_bool_iff in Eq. contradiction.
    + simpl. now left.
Qed.

Lemma heaviest_not_in_nonzero_pairs (vals : var -> option Q) (w : Q) :
  ~ In (Heaviest w) (nonzero_pairs boxes wagons vals).
Proof.
  unfold nonzero_pairs. rewrite in_flat_map. intros (n & _ & Hin).
  apply in_flat_map in Hin. destruct Hin as (b & _ & Hin).
  destruct (vals (xvar b n)) as [q|]; [|destruct Hin].
  destruct (negb (Qeq_bool q 0)); [|destruct Hin].
  destruct Hin as [Hin | []]. discriminate.
Qed.

(** The report cell on a model whose objective is [W]. *)
Lemma report_cell_ok (m : ConcreteModel) (s : sense) (w : Q) (st : io) :
  objective m = Some (Ref Wvar, s) -> value_of m Wvar = Some w ->
  report_cell m st
  = (inr tt, mkIO (reads st ++ [Wvar]) (stdout st ++ [Heaviest w])).
Proof.
  intros Ho Ew. unfold report_cell. rewrite Ho.
  now rewrite (bind_ok _ _ _ _ _ (pyo_value_var_some m Wvar w st Ew)).
Qed.

(** The two cells after the solve, on values that are all there. *)
Lemma after_solve_ok (tc : TerminationCondition.t) (vals : var -> option Q) (w : Q) :
  (forall b n, In b (B boxes) -> In n (N wagons) -> vals (xvar b n) <> None) ->
  vals Wvar = Some w ->
  after_solve boxes wagons tc (load_values vals (built boxes wagons)) io0
  = (inr tt, mkIO (all_reads boxes wagons)
                  (nonzero_pairs boxes wagons vals ++ [Heaviest w])).
Proof.
  intros Hx Hw. unfold after_solve.
  erewrite bind_ok by (apply decode_cell_ok; exact Hx).
  erewrite report_cell_ok by (try reflexivity; exact Hw).
  reflexivity.
Qed.

End Printed.

(** ** Every box in one wagon *)

Section OneWagon.

(** C3: in every feasible valuation of the built model the indicators of a
    box add up to 1 over the wagons, and the decoding cell run on that
    valuation prints the box with one wagon and no other. *)
Theorem feasible_places_each_box_once
    (boxes wagons : DataFrame) (m : ConcreteModel) (v : valuation) (b : Z) :
  build_model boxes wagons = inr m ->
  feasible m v ->
  In b (B boxes) ->
  qsum (map (fun n => v (xvar b n)) (N wagons)) == 1 /\
  exists out,
    decode_cell boxes wagons (load_values (loaded v) m) io0
    = (inr tt, out) /\
    exists n, In n (N wagons) /\
              In (Assigned b n) (stdout out) /\
              forall n', In (Assigned b n') (stdout out) -> n' = n.
Proof.
  intros E Hf Hb. apply build_model_inr in E. subst m.
  apply feasible_built in Hf. destruct Hf as (Hx & _ & H1 & _).
  split; [exact (H1 b Hb)|].
  eexists. split.
  - apply decode_cell_ok. intros b' n' _ _. discriminate.
  - cbn [stdout app].
    destruct (qsum_binary_one (fun n => v (xvar b n)) (N wagons))
      as (l1 & n & l2 & EN & E1 & Hz).
    + intros n Hn. now apply Hx.
    + exact (H1 b Hb).
    + assert (Hn : In n (N wagons))
        by (rewrite EN; apply in_or_app; right; now left).
      exists n. split; [exact Hn|]. split.
      * apply in_nonzero_pairs. repeat split; try assumption.
        exists (v (xvar b n)). split; [reflexivity|]. rewrite E1. lra.
      * intros n' Hin. apply in_nonzero_pairs in Hin.
        destruct Hin as (_ & Hn' & q & Eq & Hq).
        inversion Eq; subst q.
        rewrite EN in Hn'. apply in_app_or in Hn'.
        destruct Hn' as [Hn' | [<- | Hn']]; [exfalso | reflexivity | exfalso];
          apply Hq, Hz, in_or_app; tauto.
Qed.

Lemma feasible_places_each_box_once_witness :
  In 7%Z (B Data.boxes) /\
  qsum (map (fun n => Data.saved_run (xvar 7 n)) (N Data.wagons)) == 1.
Proof.
  assert (Hb : In 7%Z (B Data.boxes)) by (simpl; tauto).
  split; [exact Hb|].
  exact (proj1 (feasible_places_each_box_once Data.boxes Data.wagons _
                  Data.saved_run 7 data_build saved_run_feasible Hb)).
Defined.

End OneWagon.

(** ** Inputs the construction cell accepts *)

Section Validation.

(** The cell goes through with a negative weight, and with no box at all:
    nothing in it looks at the sign of a weight or at the size of a set. *)
Lemma build_model_accepts_bad_input :
  (weight (Data.one_box (-5)) 1 < 0 /\
   build_model (Data.one_box (-5)) (Data.one_wagon 100)
   = inr (built (Data.one_box (-5)) (Data.one_wagon 100))) /\
  (B [] = [] /\ build_model [] (Data.one_wagon 100)
                = inr (built [] (Data.one_wagon 100))).
Proof.
  split; split.
  - reflexivity.
  - apply build_model_ok. left. discriminate.
  - reflexivity.
  - apply build_model_ok. now right.
Qed.

(** C4 (as amended): the construction cell validates nothing.  On tables
    with distinct labels it succeeds whenever there is a wagon or there is
    no box, whatever the weights; with boxes and no wagon it stops on the
    [ValueError] of [ConstraintList.add], the first [sum(...) == 1] being
    the Python comparison [0 == 1].  (Tables with a repeated label are
    left aside: [wb[b]] is then a sub-series, not a number.) *)
Theorem build_model_outcome (boxes wagons : DataFrame) :
  NoDup (B boxes) -> NoDup (N wagons) ->
  build_model boxes wagons
  = match N wagons, B boxes with
    | [], _ :: _ => inl (ValueError "Invalid constraint expression: trivial Boolean")
    | _, _ => inr (built boxes wagons)
    end.
Proof.
  intros _ _.
  destruct (N wagons) as [|n l] eqn:EN.
  - destruct (B boxes) as [|b l'] eqn:EB.
    + apply build_model_ok. now right.
    + apply build_model_no_wagon; [exact EN | rewrite EB; discriminate].
  - apply build_model_ok. left. rewrite EN. discriminate.
Qed.

Lemma build_model_outcome_witness :
  NoDup (B (Data.one_box (-5))) /\ NoDup (N (Data.one_wagon 100)) /\
  build_model (Data.one_box (-5)) (Data.one_wagon 100)
  = inr (built (Data.one_box (-5)) (Data.one_wagon 100)).
Proof.
  assert (H1 : NoDup (B (Data.one_box (-5))))
    by (repeat constructor; simpl; tauto).
  assert (H2 : NoDup (N (Data.one_wagon 100)))
    by (repeat constructor; simpl; tauto).
  split; [exact H1|]. split; [exact H2|].
  exact (build_model_outcome (Data.one_box (-5)) (Data.one_wagon 100) H1 H2).
Defined.

End Validation.

(** ** The termination status *)

Section Status.

(** A run that stops on the time limit with an incumbent loaded: the cells
    after the solve ask for the indicator and for [W] and print both. *)
Lemma values_read_on_time_limit :
  TerminationCondition.maxTimeLimit <> TerminationCondition.optimal /\
  run_all (Data.one_box 3) (Data.one_wagon 100)
    (engine_const TerminationCondition.maxTimeLimit
                  (loaded (valuation_of [(1, 1)%Z] 3)))
  = (inr tt, mkIO [xvar 1 1; Wvar] [Assigned 1 1; Heaviest 3]).
Proof.
  split; [discriminate | reflexivity].
Qed.

(** C5 (as amended): the cells after the solver call never look at the
    termination status.  A run depends on the engine only through the
    values it loads: two engines that load the same values give the same
    reads, the same output and the same outcome, whatever statuses they
    report.  In particular, with any status, when every indicator and [W]
    hold a value the run asks for every indicator, wagon by wagon, then
    for [W], and prints the non-zero indicators and the objective value. *)
Theorem run_all_ignores_status
    (boxes wagons : DataFrame)
    (engine engine' : ConcreteModel -> TerminationCondition.t * (var -> option Q))
    (m : ConcreteModel) (tc tc' : TerminationCondition.t)
    (vals : var -> option Q) :
  build_model boxes wagons = inr m ->
  engine m = (tc, vals) ->
  engine' m = (tc', vals) ->
  run_all boxes wagons engine' = run_all boxes wagons engine /\
  (forall w,
     (forall b n, In b (B boxes) -> In n (N wagons) ->
                  vals (xvar b n) <> None) ->
     vals Wvar = Some w ->
     run_all boxes wagons engine
     = (inr tt, mkIO (all_reads boxes wagons)
                     (nonzero_pairs boxes wagons vals ++ [Heaviest w]))).
Proof.
  intros E He He'. split.
  - unfold run_all. rewrite E. unfold solve. rewrite He, He'. reflexivity.
  - intros w Hx Hw.
    unfold run_all. rewrite E. unfold solve. rewrite He.
    apply build_model_inr in E. subst m.
    now apply after_solve_ok.
Qed.

Lemma run_all_ignores_status_witness :
  build_model (Data.one_box 3) (Data.one_wagon 100)
  = inr (built (Data.one_box 3) (Data.one_wagon 100)) /\
  run_all (Data.one_box 3) (Data.one_wagon 100)
    (engine_const TerminationCondition.optimal
                  (loaded (valuation_of [(1, 1)%Z] 3)))
  = run_all (Data.one_box 3) (Data.one_wagon 100)
      (engine_const TerminationCondition.infeasible
                    (loaded (valuation_of [(1, 1)%Z] 3))) /\
  run_all (Data.one_box 3) (Data.one_wagon 100)
    (engine_const TerminationCondition.infeasible
                  (loaded (valuation_of [(1, 1)%Z] 3)))
  = (inr tt, mkIO [xvar 1 1; Wvar] [Assigned 1 1; Heaviest 3]).
Proof.
  assert (E : build_model (Data.one_box 3) (Data.one_wagon 100)
              = inr (built (Data.one_box 3) (Data.one_wagon 100)))
    by reflexivity.
  split; [exact E|].
  destruct (run_all_ignores_status (Data.one_box 3) (Data.one_wagon 100)
              (engine_const TerminationCondition.infeasible
                 (loaded (valuation_of [(1, 1)%Z] 3)))
              (engine_const TerminationCondition.optimal
                 (loaded (valuation_of [(1, 1)%Z] 3)))
              _ TerminationCondition.infeasible TerminationCondition.optimal
              (loaded (valuation_of [(1, 1)%Z] 3)) E eq_refl eq_refl)
    as [Hsame Hrun].
  split; [exact Hsame|].
  apply (Hrun 3); [|reflexivity].
  intros b n _ _. discriminate.
Defined.

End Status.

(** ** Decoding values that are not an assignment *)

Section Ambiguous.

(** A box with two non-zero indicators is printed twice, a box with none
    is left out, and the cell ends normally both times. *)
Lemma decode_cell_accepts_any_values :
  (decode_cell (Data.one_box 3) Data.two_wagons
     (load_values (loaded (valuation_of [(1, 1); (1, 2)]%Z 3))
                  (built (Data.one_box 3) Data.two_wagons)) io0
   = (inr tt, mkIO [xvar 1 1; xvar 1 2] [Assigned 1 1; Assigned 1 2])) /\
  (decode_cell (Data.one_box 3) Data.two_wagons
     (load_values (loaded (valuation_of [] 3))
                  (built (Data.one_box 3) Data.two_wagons)) io0
   = (inr tt, mkIO [xvar 1 1; xvar 1 2] [])).
Proof.
  split; reflexivity.
Qed.

(** C6 (as amended): the decoding cell has no consistency check.  When
    every indicator holds a value it ends normally and prints a line for
    exactly the pairs (box, wagon) whose indicator is not zero: a box
    without such a pair is left out, a box with several is printed once
    for each. *)
Theorem decode_cell_prints_nonzero
    (boxes wagons : DataFrame) (m : ConcreteModel) :
  (forall b n, In b (B boxes) -> In n (N wagons) ->
               value_of m (xvar b n) <> None) ->
  exists out,
    decode_cell boxes wagons m io0 = (inr tt, out) /\
    stdout out = nonzero_pairs boxes wagons (value_of m) /\
    forall b n,
      In (Assigned b n) (stdout out) <->
      In b (B boxes) /\ In n (N wagons) /\
      exists q, value_of m (xvar b n) = Some q /\ ~ q == 0.
Proof.
  intros H. eexists. split; [apply decode_cell_ok; exact H|].
  cbn [stdout app]. split; [reflexivity|].
  intros b n. apply in_nonzero_pairs.
Qed.

Lemma decode_cell_prints_nonzero_witness :
  exists out,
    decode_cell (Data.one_box 3) Data.two_wagons
      (load_values (loaded (valuation_of [(1, 1); (1, 2)]%Z 3))
                   (built (Data.one_box 3) Data.two_wagons)) io0
    = (inr tt, out) /\
    stdout out
    = nonzero_pairs (Data.one_box 3) Data.two_wagons
        (loaded (valuation_of [(1, 1); (1, 2)]%Z 3)).
Proof.
  destruct (decode_cell_prints_nonzero (Data.one_box 3) Data.two_wagons
              (load_values (loaded (valuation_of [(1, 1); (1, 2)]%Z 3))
                           (built (Data.one_box 3) Data.two_wagons)))
    as (out & E & Hout & _).
  - intros b n _ _. discriminate.
  - exists out. split; [exact E | exact Hout].
Defined.

End Ambiguous.

(** ** The reported bottleneck *)

Section Bottleneck.
Variables boxes wagons : DataFrame.


Lemma qsum_ge_term {A} (f : A -> Q) (l : list A) (a : A) :
  (forall a', In a' l -> 0 <= f a') -> In a l -> f a <= qsum (map f l).
Proof.
  induction l as [|a0 l IH]; intros Hnn Hin; simpl; [destruct Hin|].
  assert (Hl : forall a', In a' l -> 0 <= f a') by (intros; apply Hnn; now right).
  assert (0 <= qsum (map f l)).
  { rewrite <- (qsum_map_zero l). now apply qsum_map_le. }
  pose proof (Hnn a0 (or_introl eq_refl)).
  destruct Hin as [<- | Hin]; [lra|].
  specialize (IH Hl Hin). lra.
Qed.

(** With non-negative weights no box is heavier than the bottleneck. *)
Lemma single_box_bound (v : valuation) (b : Z) :
  (forall b', In b' (B boxes) -> 0 <= weight boxes b') ->
  feasible (built boxes wagons) v ->
  In b (B boxes) -> weight boxes b <= v Wvar.
Proof.
  intros Hw Hf Hb. apply feasible_built in Hf.
  destruct Hf as (Hx & _ & H1 & H2).
  destruct (qsum_binary_one (fun n => v (xvar b n)) (N wagons))
    as (l1 & n & l2 & EN & E1 & _).
  - intros n Hn. now apply Hx.
  - exact (H1 b Hb).
  - assert (Hn : In n (N wagons))
      by (rewrite EN; apply in_or_app; right; now left).
    eapply Qle_trans; [|exact (H2 n Hn)].
    assert (T : weight boxes b * v (xvar b n) <= load boxes v n).
    { unfold load.
      apply (qsum_ge_term (fun b' => weight boxes b' * v (xvar b' n))); [|exact Hb].
      intros b' Hb'. specialize (Hw b' Hb').
      destruct (Hx b' n Hb' Hn) as [E | E]; rewrite E; lra. }
    rewrite E1 in T. lra.
Qed.

End Bottleneck.

Section Reported.

Lemma weight_nonneg (boxes : DataFrame) :
  Forall (fun row => 0 <= snd row) boxes -> forall b, 0 <= weight boxes b.
Proof.
  intros H b. unfold weight.
  induction boxes as [|[k q] l IH]; simpl.
  - apply Qle_refl.
  - inversion H as [|? ? Hq Hl]; subst.
    destruct (Z.eqb k b); [exact Hq | now apply IH].
Qed.

Lemma data_weights_nonneg (b : Z) : 0 <= weight Data.boxes b.
Proof.
  apply weight_nonneg. unfold Data.boxes.
  repeat (constructor; [discriminate|]). constructor.
Qed.

Lemma negative_box_optimal :
  optimal (built (Data.one_box (-5)) (Data.one_wagon 100))
          (valuation_of [(1, 1)%Z] 0).
Proof.
  apply optimal_built. split.
  - apply feasibleb_sound. vm_compute. reflexivity.
  - intros v' Hf'. apply feasible_built in Hf'. exact (proj1 (proj2 Hf')).
Qed.

Lemma no_wagon_no_box_optimal : optimal (built [] []) (valuation_of [] 0).
Proof.
  apply optimal_built. split.
  - apply feasibleb_sound. vm_compute. reflexivity.
  - intros v' Hf'. apply feasible_built in Hf'. exact (proj1 (proj2 Hf')).
Qed.

(** The cell accepts a box of weight -5: the model is built, its optimum
    has [W = 0], which the report cell prints, while the only wagon
    carries -5.  It also accepts two empty sheets: the optimum is again
    [W = 0], and there is no wagon whose load it could be. *)
Lemma reported_value_above_largest_load :
  (build_model (Data.one_box (-5)) (Data.one_wagon 100)
   = inr (built (Data.one_box (-5)) (Data.one_wagon 100)) /\
   optimal (built (Data.one_box (-5)) (Data.one_wagon 100))
           (valuation_of [(1, 1)%Z] 0) /\
   report_cell (load_values (loaded (valuation_of [(1, 1)%Z] 0))
                  (built (Data.one_box (-5)) (Data.one_wagon 100))) io0
   = (inr tt, mkIO [Wvar] [Heaviest 0]) /\
   N (Data.one_wagon 100) = [1%Z] /\
   load (Data.one_box (-5)) (valuation_of [(1, 1)%Z] 0) 1 == -5 /\
   ~ load (Data.one_box (-5)) (valuation_of [(1, 1)%Z] 0) 1
     == objective_value (built (Data.one_box (-5)) (Data.one_wagon 100))
                        (valuation_of [(1, 1)%Z] 0)) /\
  (build_model [] [] = inr (built [] []) /\
   optimal (built [] []) (valuation_of [] 0) /\
   N [] = []).
Proof.
  split.
  - split; [reflexivity|]. split; [exact negative_box_optimal|].
    split; [reflexivity|]. split; [reflexivity|].
    split; [vm_compute; reflexivity|].
    vm_compute. discriminate.
  - split; [reflexivity|]. split; [exact no_wagon_no_box_optimal | reflexivity].
Qed.

(** C2 (as amended): with at least one wagon and non-negative weights, at
    an optimum the value the report cell prints (the objective value, [W])
    bounds every wagon load and is the load of some wagon: it is the
    largest load.  (Without these two conditions [W] is the larger of 0
    and the largest load.) *)
Theorem reported_value_is_max_load
    (boxes wagons : DataFrame) (m : ConcreteModel) (v : valuation) :
  build_model boxes wagons = inr m ->
  N wagons <> [] ->
  (forall b, In b (B boxes) -> 0 <= weight boxes b) ->
  optimal m v ->
  report_cell (load_values (loaded v) m) io0
  = (inr tt, mkIO [Wvar] [Heaviest (objective_value m v)]) /\
  (forall n, In n (N wagons) -> load boxes v n <= objective_value m v) /\
  (exists n, In n (N wagons) /\ load boxes v n == objective_value m v).
Proof.
  intros E HN Hw Hopt. apply build_model_inr in E. subst m.
  rewrite objective_value_built.
  pose proof (optimal_value _ _ _ Hopt) as HW.
  destruct Hopt as [Hf _].
  pose proof (proj1 (feasible_built _ _ _) Hf) as (Hx & _ & _ & H2).
  split; [reflexivity|]. split; [exact H2|].
  destruct (qmax_from_attained 0 (loads boxes wagons v)) as [E0 | (q & Hq & Eq)].
  - assert (Hex : exists n, In n (N wagons)).
    { destruct (N wagons) as [|n l]; [congruence|]. exists n. now left. }
    destruct Hex as [n Hn].
    exists n. split; [exact Hn|].
    assert (0 <= load boxes v n).
    { apply load_nonneg; [exact Hw|]. intros b Hb. now apply Hx. }
    assert (load boxes v n <= v Wvar) by (apply H2; exact Hn).
    rewrite E0 in HW. lra.
  - apply in_loads in Hq. destruct Hq as (n & Hn & ->).
    exists n. split; [exact Hn|]. rewrite HW, Eq. reflexivity.
Qed.

Lemma reported_value_is_max_load_witness :
  N Data.wagons <> [] /\
  exists n, In n (N Data.wagons) /\
            load Data.boxes Data.saved_run n
            == objective_value (built Data.boxes Data.wagons) Data.saved_run.
Proof.
  assert (HN : N Data.wagons <> []) by discriminate.
  split; [exact HN|].
  refine (proj2 (proj2 (reported_value_is_max_load Data.boxes Data.wagons _
                          Data.saved_run data_build HN _ saved_run_optimal))).
  intros b _. apply data_weights_nonneg.
Defined.



End Reported.

(** ** Heavier boxes *)

Section Monotone.

Lemma index_set_weight (boxes : DataFrame) (b0 : Z) (w : Q) :
  index (set_weight boxes b0 w) = index boxes.
Proof.
  unfold set_weight, index. rewrite map_map. apply map_ext.
  intros [k q]. simpl. now destruct (Z.eqb k b0).
Qed.

Lemma getitem_set_weight (boxes : DataFrame) (b0 : Z) (w : Q) (b : Z) :
  getitem (set_weight boxes b0 w) b
  = match getitem boxes b with
    | Some q => Some (if Z.eqb b b0 then w else q)
    | None => None
    end.
Proof.
  induction boxes as [|[k q] l IH]; simpl; [reflexivity|].
  destruct (Z.eqb k b0) eqn:E0; simpl; destruct (Z.eqb k b) eqn:Eb.
  - apply Z.eqb_eq in Eb. subst k. now rewrite E0.
  - exact IH.
  - apply Z.eqb_eq in Eb. subst k. now rewrite E0.
  - exact IH.
Qed.

Lemma weight_set_weight_le (boxes : DataFrame) (b0 : Z) (w : Q) (b : Z) :
  weight boxes b0 <= w ->
  weight boxes b <= weight (set_weight boxes b0 w) b.
Proof.
  intros Hw. unfold weight in *. rewrite getitem_set_weight.
  destruct (getitem boxes b) as [q|] eqn:E; [|apply Qle_refl].
  destruct (Z.eqb b b0) eqn:E0; [|apply Qle_refl].
  apply Z.eqb_eq in E0. subst b0. now rewrite E in Hw.
Qed.

(** A valuation feasible for the heavier table is feasible for the
    lighter one. *)
Lemma feasible_lighter (boxes boxes' wagons : DataFrame) (v : valuation) :
  B boxes' = B boxes ->
  (forall b, In b (B boxes) -> weight boxes b <= weight boxes' b) ->
  feasible (built boxes' wagons) v -> feasible (built boxes wagons) v.
Proof.
  intros EB Hw. rewrite !feasible_built. rewrite EB.
  intros (Hx & HW & H1 & H2). repeat split; try assumption.
  intros n Hn. eapply Qle_trans; [|exact (H2 n Hn)].
  unfold load. rewrite EB. apply qsum_map_le. intros b Hb.
  specialize (Hw b Hb).
  destruct (Hx b n Hb Hn) as [E | E]; rewrite E; lra.
Qed.

(** C7: making one box heavier, everything else unchanged, never lowers
    the optimal objective value. *)
Theorem optimum_monotone_in_weight
    (boxes wagons : DataFrame) (b0 : Z) (w' : Q)
    (m m' : ConcreteModel) (v v' : valuation) :
  weight boxes b0 <= w' ->
  build_model boxes wagons = inr m ->
  build_model (set_weight boxes b0 w') wagons = inr m' ->
  optimal m v -> optimal m' v' ->
  objective_value m v <= objective_value m' v'.
Proof.
  intros Hw E E' [_ Hmin] [Hf' _].
  apply build_model_inr in E. apply build_model_inr in E'. subst m m'.
  rewrite !objective_value_built.
  apply (Hmin v').
  apply (feasible_lighter boxes (set_weight boxes b0 w') wagons v').
  - unfold B. apply index_set_weight.
  - intros b _. now apply weight_set_weight_le.
  - exact Hf'.
Qed.

Lemma two_boxes_optimal (w1 w2 : Z) :
  (0 <= w2 <= w1)%Z ->
  optimal (built (Data.two_boxes w1 w2) Data.two_wagons)
          (valuation_of [(1, 1); (2, 2)]%Z (inject_Z w1)).
Proof.
  intros Hw.
  assert (H1 : 0 <= inject_Z w1) by (rewrite <- (Zle_Qle 0); lia).
  assert (H2 : inject_Z w2 <= inject_Z w1) by (rewrite <- Zle_Qle; lia).
  assert (H3 : 0 <= inject_Z w2) by (rewrite <- (Zle_Qle 0); lia).
  assert (Hf : feasible (built (Data.two_boxes w1 w2) Data.two_wagons)
                        (valuation_of [(1, 1); (2, 2)]%Z (inject_Z w1))).
  { apply feasible_built. repeat split.
    - intros b n [<- | [<- | []]] [<- | [<- | []]]; simpl; auto using Qeq_refl.
    - exact H1.
    - intros b [<- | [<- | []]]; reflexivity.
    - intros n [<- | [<- | []]]; unfold load, weight; simpl; lra. }
  apply optimal_built. split; [exact Hf|].
  intros v' Hf'. change (valuation_of _ (inject_Z w1) Wvar) with (inject_Z w1).
  apply (single_box_bound (Data.two_boxes w1 w2) Data.two_wagons v' 1) in Hf'.
  - exact Hf'.
  - intros b [<- | [<- | []]]; assumption.
  - now left.
Qed.

Lemma optimum_monotone_in_weight_witness :
  weight (Data.two_boxes 4 3) 1 <= 5 /\
  objective_value (built (Data.two_boxes 4 3) Data.two_wagons)
                  (valuation_of [(1, 1); (2, 2)]%Z 4)
  <= objective_value (built (Data.two_boxes 5 3) Data.two_wagons)
                     (valuation_of [(1, 1); (2, 2)]%Z 5).
Proof.
  assert (Hw : weight (Data.two_boxes 4 3) 1 <= 5) by discriminate.
  split; [exact Hw|].
  apply (optimum_monotone_in_weight (Data.two_boxes 4 3) Data.two_wagons 1 5
           _ _ _ _ Hw eq_refl eq_refl).
  - apply (two_boxes_optimal 4 3). lia.
  - apply (two_boxes_optimal 5 3). lia.
Defined.

End Monotone.

(** ** The sixteen boxes and three wagons *)

Section Scenario.

(** The saved run is optimal with value 99; its three loads add up to the
    total weight, which is 295 and not 299. *)
Lemma saved_run_total_is_295 :
  optimal (built Data.boxes Data.wagons) Data.saved_run /\
  objective_value (built Data.boxes Data.wagons) Data.saved_run == 99 /\
  loads Data.boxes Data.wagons Data.saved_run = [98; 99; 98] /\
  qsum (map (weight Data.boxes) (B Data.boxes)) == 295 /\
  ~ qsum (loads Data.boxes Data.wagons Data.saved_run) == 299.
Proof.
  split; [exact saved_run_optimal|].
  split; [reflexivity|].
  split; [vm_compute; reflexivity|].
  split; [exact data_total|].
  rewrite (loads_total _ _ _ saved_run_feasible), data_total.
  discriminate.
Qed.

(** C8 (as amended): for the weights
    [34,6,8,17,16,5,13,21,25,31,14,13,33,9,25,25] and three wagons, every
    optimal valuation has objective value 99, every wagon load at most 99,
    and loads that add up to 295, the total weight. *)
Theorem notebook_instance_optimum (m : ConcreteModel) (v : valuation) :
  build_model Data.boxes Data.wagons = inr m ->
  optimal m v ->
  objective_value m v == 99 /\
  (forall n, In n (N Data.wagons) -> load Data.boxes v n <= 99) /\
  qsum (loads Data.boxes Data.wagons v) == 295 /\
  qsum (map (weight Data.boxes) (B Data.boxes)) == 295.
Proof.
  intros E Hopt. apply build_model_inr in E. subst m.
  rewrite objective_value_built.
  pose proof Hopt as [Hf Hmin]. apply optimal_built in Hopt.
  assert (HW : v Wvar == 99).
  { apply Qle_antisym.
    - exact (proj2 Hopt Data.saved_run saved_run_feasible).
    - now apply data_lower_bound. }
  split; [exact HW|]. split; [|split].
  - intros n Hn. rewrite <- HW.
    apply (proj1 (feasible_built _ _ _) Hf). exact Hn.
  - rewrite (loads_total _ _ _ Hf). exact data_total.
  - exact data_total.
Qed.

Lemma notebook_instance_optimum_witness :
  optimal (built Data.boxes Data.wagons) Data.saved_run /\
  objective_value (built Data.boxes Data.wagons) Data.saved_run == 99.
Proof.
  split; [exact saved_run_optimal|].
  exact (proj1 (notebook_instance_optimum _ Data.saved_run data_build
                  saved_run_optimal)).
Defined.

End Scenario.

(** ** The capacity column *)

Section Capacity.

Lemma build_model_reads_index (boxes wagons wagons' : DataFrame) :
  index wagons = index wagons' ->
  build_model boxes wagons = build_model boxes wagons'.
Proof.
  intros E. unfold build_model, build_cell, constraint1_expr, N.
  now rewrite E.
Qed.

(** C9: the capacities are never read.  Two wagon tables with the same
    labels give the same model, hence the same optimal valuations with the
    same objective value, and the same run of the notebook with any
    engine. *)
Theorem capacity_is_never_read
    (boxes wagons wagons' : DataFrame)
    (engine : ConcreteModel -> TerminationCondition.t * (var -> option Q)) :
  index wagons = index wagons' ->
  build_model boxes wagons = build_model boxes wagons' /\
  run_all boxes wagons engine = run_all boxes wagons' engine /\
  (forall m m' v, build_model boxes wagons = inr m ->
                  build_model boxes wagons' = inr m' ->
                  (optimal m v <-> optimal m' v) /\
                  objective_value m v = objective_value m' v).
Proof.
  intros E. pose proof (build_model_reads_index boxes _ _ E) as Eb.
  split; [exact Eb|]. split.
  - unfold run_all. rewrite Eb.
    destruct (build_model boxes wagons') as [e|m]; [reflexivity|].
    destruct (solve engine m) as [tc m'].
    unfold after_solve, decode_cell, N. now rewrite E.
  - intros m m' v Em Em'. rewrite Eb, Em' in Em. inversion Em; subst m'.
    split; [tauto | reflexivity].
Qed.

Lemma capacity_is_never_read_witness :
  index Data.wagons = index Data.tiny_wagons /\
  build_model Data.boxes Data.tiny_wagons = inr (built Data.boxes Data.wagons) /\
  optimal (built Data.boxes Data.wagons) Data.saved_run /\
  getitem Data.tiny_wagons 2 = Some 1 /\
  1 < load Data.boxes Data.saved_run 2.
Proof.
  assert (E : index Data.wagons = index Data.tiny_wagons) by reflexivity.
  split; [exact E|]. split; [|split; [|split]].
  - rewrite <- (proj1 (capacity_is_never_read Data.boxes Data.wagons
                         Data.tiny_wagons
                         (engine_const TerminationCondition.optimal
                                       (loaded Data.saved_run)) E)).
    exact data_build.
  - exact saved_run_optimal.
  - reflexivity.
  - vm_compute. reflexivity.
Defined.

End Capacity.

(** ** Existence of the optimum *)

Section Enumeration.
Variables boxes wagons : DataFrame.

Lemma valuation_of_x (a : list (Z * Z)) (w : Q) (b n : Z) :
  valuation_of a w (xvar b n)
  = if existsb (fun k => Z.eqb (fst k) b && Z.eqb (snd k) n) a then 1 else 0.
Proof. reflexivity. Qed.

Lemma assignments_boxes (Bs Ns : list Z) (a : list (Z * Z)) :
  In a (assignments Bs Ns) -> map fst a = Bs.
Proof.
  revert a. induction Bs as [|b Bs IH]; intros a Ha; simpl in Ha.
  - destruct Ha as [<- | []]. reflexivity.
  - apply in_flat_map in Ha. destruct Ha as (n & _ & Ha).
    apply in_map_iff in Ha. destruct Ha as (a' & <- & Ha').
    simpl. f_equal. now apply IH.
Qed.

Lemma existsb_box (a : list (Z * Z)) (b n : Z) :
  existsb (fun k => Z.eqb (fst k) b && Z.eqb (snd k) n) a = true ->
  In b (map fst a).
Proof.
  intros H. apply existsb_exists in H. destruct H as ([b' n'] & Hin & E).
  simpl in E. apply andb_true_iff in E. destruct E as [E _].
  apply Z.eqb_eq in E. subst b'. apply in_map_iff. now exists (b, n').
Qed.

Lemma absent_box (Bs Ns : list Z) (a : list (Z * Z)) (b n : Z) :
  In a (assignments Bs Ns) -> ~ In b Bs ->
  existsb (fun k => Z.eqb (fst k) b && Z.eqb (snd k) n) a = false.
Proof.
  intros Ha Hb.
  destruct (existsb _ a) eqn:E; [|reflexivity].
  apply existsb_box in E. rewrite (assignments_boxes _ _ _ Ha) in E.
  contradiction.
Qed.

(** Over a list without repetition, the indicator of one of its elements
    sums to 1. *)
Lemma qsum_indicator (Ns : list Z) (n0 : Z) :
  NoDup Ns -> In n0 Ns ->
  qsum (map (fun n => if Z.eqb n0 n then 1 else 0) Ns) == 1.
Proof.
  induction 1 as [|n l Hn Hl IH]; intros Hin; [destruct Hin|].
  simpl. destruct (Z.eqb n0 n) eqn:E.
  - apply Z.eqb_eq in E. subst n.
    rewrite (qsum_map_ext _ (fun _ => 0)), qsum_map_zero; [lra|].
    intros n' Hn'. destruct (Z.eqb n0 n') eqn:E'; [|reflexivity].
    apply Z.eqb_eq in E'. subst n'. contradiction.
  - destruct Hin as [-> | Hin]; [now rewrite Z.eqb_refl in E|].
    rewrite (IH Hin). lra.
Qed.

Lemma assignment_places_once (Bs Ns : list Z) (a : list (Z * Z)) (w : Q) :
  NoDup Bs -> NoDup Ns -> In a (assignments Bs Ns) ->
  forall b, In b Bs ->
            qsum (map (fun n => valuation_of a w (xvar b n)) Ns) == 1.
Proof.
  intros HB HN. revert a.
  induction HB as [|b0 Bs Hb0 HBs IH]; intros a Ha b Hb; [destruct Hb|].
  simpl in Ha. apply in_flat_map in Ha. destruct Ha as (n0 & Hn0 & Ha).
  apply in_map_iff in Ha. destruct Ha as (a' & <- & Ha').
  destruct (Z.eq_dec b0 b) as [<- | Hne].
  - rewrite <- (qsum_indicator Ns n0 HN Hn0).
    apply qsum_map_ext. intros n _. rewrite valuation_of_x.
    cbn [existsb fst snd]. rewrite Z.eqb_refl.
    rewrite (absent_box _ _ _ b0 n Ha' Hb0).
    cbn [andb]. rewrite orb_false_r. reflexivity.
  - destruct Hb as [E | Hb]; [contradiction|].
    rewrite <- (IH a' Ha' b Hb).
    apply qsum_map_ext. intros n _. rewrite !valuation_of_x.
    cbn [existsb fst snd].
    destruct (Z.eqb b0 b) eqn:E; [apply Z.eqb_eq in E; contradiction|].
    reflexivity.
Qed.

(** An enumerated assignment, completed with its bottleneck, is feasible. *)
Lemma assignment_feasible (a : list (Z * Z)) :
  NoDup (B boxes) -> NoDup (N wagons) ->
  In a (assignments (B boxes) (N wagons)) ->
  feasible (built boxes wagons) (valuation_of a (bottleneck boxes wagons a)).
Proof.
  intros HB HN Ha. apply feasible_built. repeat split.
  - intros b n _ _. rewrite valuation_of_x.
    destruct (existsb _ a); [right | left]; reflexivity.
  - apply qmax_from_ge_floor.
  - intros b Hb. unfold placed. now apply (assignment_places_once (B boxes)).
  - intros n Hn. change (valuation_of a (bottleneck boxes wagons a) Wvar)
      with (bottleneck boxes wagons a).
    unfold bottleneck. apply qmax_from_ge. apply in_loads. now exists n.
Qed.

(** Every feasible valuation is one of the enumerated assignments. *)
Lemma feasible_enumerated (v : valuation) (Bs Ns : list Z) :
  NoDup Bs ->
  (forall b n, In b Bs -> In n Ns -> v (xvar b n) == 0 \/ v (xvar b n) == 1) ->
  (forall b, In b Bs -> qsum (map (fun n => v (xvar b n)) Ns) == 1) ->
  exists a, In a (assignments Bs Ns) /\
            forall b n, In b Bs -> In n Ns ->
                        v (xvar b n) == valuation_of a 0 (xvar b n).
Proof.
  induction 1 as [|b0 Bs Hb0 HBs IH]; intros Hx H1.
  - exists []. split; [now left|]. intros b n [].
  - destruct IH as (a' & Ha' & Hagree).
    { intros b n Hb Hn. apply Hx; [now right | exact Hn]. }
    { intros b Hb. apply H1. now right. }
    destruct (qsum_binary_one (fun n => v (xvar b0 n)) Ns)
      as (l1 & n0 & l2 & EN & E1 & Hz).
    { intros n Hn. apply Hx; [now left | exact Hn]. }
    { apply H1. now left. }
    assert (Hn0 : In n0 Ns) by (rewrite EN; apply in_or_app; right; now left).
    exists ((b0, n0) :: a'). split.
    + simpl. apply in_flat_map. exists n0. split; [exact Hn0|].
      apply in_map_iff. now exists a'.
    + intros b n Hb Hn. rewrite valuation_of_x. cbn [existsb fst snd].
      destruct (Z.eq_dec b0 b) as [<- | Hne].
      * rewrite Z.eqb_refl, (absent_box _ _ _ b0 n Ha' Hb0). cbn [andb].
        rewrite orb_false_r.
        destruct (Z.eqb n0 n) eqn:E.
        -- apply Z.eqb_eq in E. subst n. exact E1.
        -- apply Hz. rewrite EN in Hn. apply in_app_or in Hn.
           apply in_or_app.
           destruct Hn as [Hn | [-> | Hn]];
             [now left | now rewrite Z.eqb_refl in E | now right].
      * destruct (Z.eqb b0 b) eqn:E; [apply Z.eqb_eq in E; contradiction|].
        cbn [andb orb]. destruct Hb as [Hb | Hb]; [contradiction|].
        rewrite (Hagree b n Hb Hn), valuation_of_x. reflexivity.
Qed.

Lemma assignments_nonempty (Bs Ns : list Z) :
  Ns <> [] \/ Bs = [] -> assignments Bs Ns <> [].
Proof.
  intros [HN | ->]; [|discriminate].
  induction Bs as [|b Bs IH]; [discriminate|].
  simpl. destruct Ns as [|n Ns]; [congruence|].
  destruct (assignments Bs (n :: Ns)) as [|a l]; [contradiction|].
  discriminate.
Qed.

Lemma least_exists {A} (f : A -> Q) (l : list A) :
  l <> [] -> exists a, In a l /\ forall a', In a' l -> f a <= f a'.
Proof.
  induction l as [|a l IH]; [congruence|]. intros _.
  destruct l as [|a1 l].
  - exists a. split; [now left|]. intros a' [<- | []]. apply Qle_refl.
  - destruct IH as (m & Hm & Hmin); [discriminate|].
    destruct (Qlt_le_dec (f a) (f m)) as [Hlt | Hge].
    + exists a. split; [now left|].
      intros a' [<- | Hin]; [apply Qle_refl|].
      specialize (Hmin a' Hin). lra.
    + exists m. split; [now right|].
      intros a' [<- | Hin]; [exact Hge | now apply Hmin].
Qed.

(** No feasible valuation goes below the bottleneck of its assignment. *)
Lemma feasible_above_bottleneck (v : valuation) :
  NoDup (B boxes) ->
  feasible (built boxes wagons) v ->
  exists a, In a (assignments (B boxes) (N wagons)) /\
            bottleneck boxes wagons a <= v Wvar.
Proof.
  intros HB Hf. pose proof (feasible_bounds _ _ _ Hf) as Hb.
  apply feasible_built in Hf. destruct Hf as (Hx & _ & H1 & _).
  destruct (feasible_enumerated v (B boxes) (N wagons) HB Hx H1)
    as (a & Ha & Hagree).
  exists a. split; [exact Ha|].
  eapply Qle_trans; [|exact Hb].
  unfold bottleneck. apply qmax_from_lub; [apply qmax_from_ge_floor|].
  intros q Hq. apply in_loads in Hq. destruct Hq as (n & Hn & ->).
  eapply Qle_trans; [|apply qmax_from_ge; apply in_loads; now exists n].
  apply Qle_lteq. right. unfold load. apply qsum_map_ext.
  intros b Hb'. rewrite (Hagree b n Hb' Hn). reflexivity.
Qed.

(** On tables with distinct labels, with a wagon or without boxes, the
    built model has an optimal valuation. *)
Lemma optimum_exists :
  NoDup (B boxes) -> NoDup (N wagons) ->
  N wagons <> [] \/ B boxes = [] ->
  exists v, optimal (built boxes wagons) v.
Proof.
  intros HB HN Hne.
  destruct (least_exists (bottleneck boxes wagons)
              (assignments (B boxes) (N wagons)))
    as (a & Ha & Hmin); [now apply assignments_nonempty|].
  exists (valuation_of a (bottleneck boxes wagons a)).
  apply optimal_built. split; [now apply assignment_feasible|].
  intros v' Hf'.
  destruct (feasible_above_bottleneck v' HB Hf') as (a' & Ha' & Hle).
  change (valuation_of a (bottleneck boxes wagons a) Wvar)
    with (bottleneck boxes wagons a).
  eapply Qle_trans; [apply Hmin; exact Ha' | exact Hle].
Qed.

End Enumeration.

Section Search.
Variables boxes wagons : DataFrame.

Lemma fold_Qmin_le (q : Q) (l : list Q) (p : Q) :
  In p (q :: l) -> fold_right Qmin q l <= p.
Proof.
  induction l as [|a l IH]; simpl.
  - intros [<- | []]. apply Qle_refl.
  - intros [<- | [<- | Hin]].
    + eapply Qle_trans; [apply Q.le_min_r | apply IH; now left].
    + apply Q.le_min_l.
    + eapply Qle_trans; [apply Q.le_min_r | apply IH; now right].
Qed.

Lemma fold_Qmin_attained (q : Q) (l : list Q) :
  exists p, In p (q :: l) /\ fold_right Qmin q l == p.
Proof.
  induction l as [|a l IH]; simpl.
  - exists q. split; [now left | reflexivity].
  - destruct IH as (p & Hp & Ep).
    destruct (Q.min_spec a (fold_right Qmin q l)) as [[_ E] | [_ E]].
    + exists a. split; [right; now left | exact E].
    + exists p. split; [|now rewrite E].
      destruct Hp as [<- | Hp]; [now left | right; now right].
Qed.

(** The exhaustive search returns the objective value of every optimal
    valuation. *)
Lemma enumerated_optimum_correct (v : valuation) (q : Q) :
  NoDup (B boxes) -> NoDup (N wagons) ->
  optimal (built boxes wagons) v ->
  enumerated_optimum boxes wagons = Some q ->
  v Wvar == q.
Proof.
  intros HB HN Hopt. apply optimal_built in Hopt. destruct Hopt as [Hf Hmin].
  unfold enumerated_optimum.
  destruct (map (bottleneck boxes wagons) (assignments (B boxes) (N wagons)))
    as [|q0 l] eqn:EL; [discriminate|].
  intros E. inversion E; subst q. clear E.
  apply Qle_antisym.
  - destruct (fold_Qmin_attained q0 l) as (p & Hp & ->).
    rewrite <- EL in Hp. apply in_map_iff in Hp. destruct Hp as (a & <- & Ha).
    exact (Hmin _ (assignment_feasible boxes wagons a HB HN Ha)).
  - destruct (feasible_above_bottleneck boxes wagons v HB Hf) as (a & Ha & Hle).
    eapply Qle_trans; [|exact Hle].
    apply fold_Qmin_le. rewrite <- EL. now apply in_map.
Qed.

Lemma enumerated_optimum_two_boxes :
  enumerated_optimum (Data.two_boxes 4 3) Data.two_wagons = Some 4.
Proof. reflexivity. Qed.

End Search.

(** * Further properties of the model and of the cells *)

(** ** Bounds on the bottleneck *)

Section Bounds.

Lemma qsum_le_const (l : list Q) (u : Q) :
  (forall q, In q l -> q <= u) -> qsum l <= qnat (List.length l) * u.
Proof.
  unfold qnat. induction l as [|a l IH]; intros H.
  - simpl. unfold inject_Z. lra.
  - cbn [qsum fold_right List.length]. fold (qsum l).
    rewrite Nat2Z.inj_succ, <- Z.add_1_r, inject_Z_plus.
    assert (a <= u) by (apply H; now left).
    assert (qsum l <= inject_Z (Z.of_nat (List.length l)) * u)
      by (apply IH; intros; apply H; now right).
    change (inject_Z 1) with 1. lra.
Qed.

Lemma one_box_optimal (w : Z) (wagons : DataFrame) (v : valuation) :
  (0 <= w)%Z ->
  feasible (built (Data.one_box w) wagons) v ->
  v Wvar == inject_Z w ->
  optimal (built (Data.one_box w) wagons) v.
Proof.
  intros Hw Hf HW. apply optimal_built. split; [exact Hf|].
  intros v' Hf'. rewrite HW.
  assert (H0 : 0 <= inject_Z w) by (rewrite <- (Zle_Qle 0); exact Hw).
  apply (single_box_bound (Data.one_box w) wagons v' 1) in Hf'.
  - exact Hf'.
  - intros b [<- | []]. exact H0.
  - now left.
Qed.

(** X1: in every feasible valuation of the built model the wagon loads add
    up to the total weight of the boxes: no weight is lost or counted
    twice. *)
Theorem loads_add_up_to_total_weight
    (boxes wagons : DataFrame) (m : ConcreteModel) (v : valuation) :
  build_model boxes wagons = inr m ->
  feasible m v ->
  qsum (map (load boxes v) (N wagons)) == qsum (map (weight boxes) (B boxes)).
Proof.
  intros E Hf. apply build_model_inr in E. subst m.
  exact (loads_total boxes wagons v Hf).
Qed.

Lemma loads_add_up_to_total_weight_witness :
  qsum (map (load Data.boxes Data.saved_run) (N Data.wagons))
  == qsum (map (weight Data.boxes) (B Data.boxes)).
Proof.
  exact (loads_add_up_to_total_weight Data.boxes Data.wagons _ Data.saved_run
           data_build saved_run_feasible).
Defined.

(** X2: with non-negative weights, the objective value of a feasible
    valuation is at least the weight of every single box. *)
Theorem bottleneck_at_least_each_box
    (boxes wagons : DataFrame) (m : ConcreteModel) (v : valuation) (b : Z) :
  build_model boxes wagons = inr m ->
  (forall b', In b' (B boxes) -> 0 <= weight boxes b') ->
  feasible m v ->
  In b (B boxes) ->
  weight boxes b <= objective_value m v.
Proof.
  intros E Hw Hf Hb. apply build_model_inr in E. subst m.
  rewrite objective_value_built.
  now apply (single_box_bound boxes wagons).
Qed.

Lemma bottleneck_at_least_each_box_witness :
  In 1%Z (B Data.boxes) /\
  weight Data.boxes 1
  <= objective_value (built Data.boxes Data.wagons) Data.saved_run.
Proof.
  assert (Hb : In 1%Z (B Data.boxes)) by (simpl; tauto).
  split; [exact Hb|].
  exact (bottleneck_at_least_each_box Data.boxes Data.wagons _ Data.saved_run 1
           data_build (fun b _ => data_weights_nonneg b) saved_run_feasible Hb).
Defined.

(** X3: the objective value of a feasible valuation, times the number of
    wagons, is at least the total weight: the bottleneck is never below
    the average load. *)
Theorem bottleneck_at_least_average
    (boxes wagons : DataFrame) (m : ConcreteModel) (v : valuation) :
  build_model boxes wagons = inr m ->
  feasible m v ->
  qsum (map (weight boxes) (B boxes))
  <= qnat (List.length (N wagons)) * objective_value m v.
Proof.
  intros E Hf. apply build_model_inr in E. subst m.
  rewrite objective_value_built, <- (loads_total boxes wagons v Hf).
  unfold loads. rewrite <- (length_map (load boxes v) (N wagons)).
  apply qsum_le_const. intros q Hq.
  apply in_map_iff in Hq. destruct Hq as (n & <- & Hn).
  apply (proj1 (feasible_built _ _ _) Hf). exact Hn.
Qed.

Lemma bottleneck_at_least_average_witness :
  qsum (map (weight Data.boxes) (B Data.boxes))
  <= qnat (List.length (N Data.wagons))
     * objective_value (built Data.boxes Data.wagons) Data.saved_run.
Proof.
  exact (bottleneck_at_least_average Data.boxes Data.wagons _ Data.saved_run
           data_build saved_run_feasible).
Defined.

(** X4: whatever the weights, at an optimum [W] is the largest wagon load,
    or 0 when no load is positive (negative weights, or no wagon): the
    domain of [W] keeps it from following a negative load. *)
Theorem optimum_is_largest_load_or_zero
    (boxes wagons : DataFrame) (m : ConcreteModel) (v : valuation) :
  build_model boxes wagons = inr m ->
  optimal m v ->
  objective_value m v == qmax_from 0 (map (load boxes v) (N wagons)).
Proof.
  intros E Hopt. apply build_model_inr in E. subst m.
  rewrite objective_value_built. now apply optimal_value.
Qed.

Lemma optimum_is_largest_load_or_zero_witness :
  optimal (built (Data.one_box (-5)) (Data.one_wagon 100))
          (valuation_of [(1, 1)%Z] 0) /\
  load (Data.one_box (-5)) (valuation_of [(1, 1)%Z] 0) 1 == -5 /\
  objective_value (built (Data.one_box (-5)) (Data.one_wagon 100))
                  (valuation_of [(1, 1)%Z] 0) == 0.
Proof.
  assert (Hopt : optimal (built (Data.one_box (-5)) (Data.one_wagon 100))
                         (valuation_of [(1, 1)%Z] 0)).
  { apply optimal_built. split.
    - apply feasibleb_sound. vm_compute. reflexivity.
    - intros v' Hf'. apply feasible_built in Hf'.
      exact (proj1 (proj2 Hf')). }
  split; [exact Hopt|]. split; [vm_compute; reflexivity|].
  rewrite (optimum_is_largest_load_or_zero (Data.one_box (-5))
             (Data.one_wagon 100) _ _ eq_refl Hopt).
  vm_compute. reflexivity.
Defined.

End Bounds.

(** ** The model against the problem it stands for *)

Section Minimax.

Lemma data_labels_distinct : NoDup (B Data.boxes) /\ NoDup (N Data.wagons).
Proof.
  split; repeat (constructor; [simpl; intuition discriminate|]); constructor.
Qed.

(** X5: on sheets with distinct labels, with at least one wagon or with no
    box, the construction cell yields a model that has an optimal
    valuation: it is neither infeasible nor unbounded. *)
Theorem built_model_has_optimum (boxes wagons : DataFrame) :
  NoDup (B boxes) -> NoDup (N wagons) ->
  N wagons <> [] \/ B boxes = [] ->
  exists m v, build_model boxes wagons = inr m /\ optimal m v.
Proof.
  intros HB HN Hne.
  destruct (optimum_exists boxes wagons HB HN Hne) as [v Hv].
  exists (built boxes wagons), v. split; [now apply build_model_ok | exact Hv].
Qed.

Lemma built_model_has_optimum_witness :
  exists m v, build_model Data.boxes Data.wagons = inr m /\ optimal m v.
Proof.
  apply (built_model_has_optimum Data.boxes Data.wagons).
  - exact (proj1 data_labels_distinct).
  - exact (proj2 data_labels_distinct).
  - left. discriminate.
Defined.

(** X6: the linear model solves the minimax problem it stands for.  On
    sheets with distinct labels, the optimal objective value is the least,
    over all ways of giving each box one wagon, of the heaviest wagon load
    (taken as 0 when that load is negative). *)
Theorem optimum_is_minimax
    (boxes wagons : DataFrame) (m : ConcreteModel) (v : valuation) :
  NoDup (B boxes) -> NoDup (N wagons) ->
  build_model boxes wagons = inr m ->
  optimal m v ->
  (exists a, In a (assignments (B boxes) (N wagons)) /\
             objective_value m v == bottleneck boxes wagons a) /\
  (forall a, In a (assignments (B boxes) (N wagons)) ->
             objective_value m v <= bottleneck boxes wagons a).
Proof.
  intros HB HN E Hopt. apply build_model_inr in E. subst m.
  rewrite objective_value_built.
  apply optimal_built in Hopt. destruct Hopt as [Hf Hmin].
  assert (Hall : forall a, In a (assignments (B boxes) (N wagons)) ->
                           v Wvar <= bottleneck boxes wagons a).
  { intros a Ha. exact (Hmin _ (assignment_feasible boxes wagons a HB HN Ha)). }
  split; [|exact Hall].
  destruct (feasible_above_bottleneck boxes wagons v HB Hf) as (a & Ha & Hle).
  exists a. split; [exact Ha|].
  apply Qle_antisym; [now apply Hall | exact Hle].
Qed.

Lemma optimum_is_minimax_witness :
  exists a, In a (assignments (B (Data.two_boxes 4 3)) (N Data.two_wagons)) /\
            objective_value (built (Data.two_boxes 4 3) Data.two_wagons)
                            (valuation_of [(1, 1); (2, 2)]%Z 4)
            == bottleneck (Data.two_boxes 4 3) Data.two_wagons a.
Proof.
  refine (proj1 (optimum_is_minimax (Data.two_boxes 4 3) Data.two_wagons _
                   (valuation_of [(1, 1); (2, 2)]%Z 4) _ _ eq_refl
                   (two_boxes_optimal 4 3 _))).
  - repeat constructor; simpl; intuition discriminate.
  - repeat constructor; simpl; intuition discriminate.
  - lia.
Defined.

(** X7: with a single wagon and non-negative weights the optimal objective
    value is the total weight. *)
Theorem single_wagon_carries_everything
    (boxes wagons : DataFrame) (m : ConcreteModel) (v : valuation) (n : Z) :
  N wagons = [n] ->
  (forall b, In b (B boxes) -> 0 <= weight boxes b) ->
  build_model boxes wagons = inr m ->
  optimal m v ->
  objective_value m v == qsum (map (weight boxes) (B boxes)).
Proof.
  intros HN Hw E Hopt. apply build_model_inr in E. subst m.
  rewrite objective_value_built.
  pose proof (optimal_value _ _ _ Hopt) as HW.
  destruct Hopt as [Hf _].
  pose proof (loads_total _ _ _ Hf) as Htot.
  pose proof (proj1 (feasible_built _ _ _) Hf) as (Hx & _ & _ & _).
  assert (Hn : In n (N wagons)) by (rewrite HN; now left).
  assert (Hnn : 0 <= load boxes v n).
  { apply load_nonneg; [exact Hw|]. intros b Hb. now apply Hx. }
  unfold loads in HW, Htot. rewrite HN in HW, Htot. simpl in HW, Htot.
  rewrite HW, <- Htot.
  rewrite Q.max_l by exact Hnn. lra.
Qed.

Lemma two_boxes_one_wagon_optimal :
  optimal (built (Data.two_boxes 4 3) (Data.one_wagon 100))
          (valuation_of [(1, 1); (2, 1)]%Z 7).
Proof.
  assert (Hf : feasible (built (Data.two_boxes 4 3) (Data.one_wagon 100))
                        (valuation_of [(1, 1); (2, 1)]%Z 7))
    by (apply feasibleb_sound; vm_compute; reflexivity).
  apply optimal_built. split; [exact Hf|].
  intros v' Hf'. pose proof (loads_total _ _ _ Hf') as Htot.
  apply feasible_built in Hf'. destruct Hf' as (_ & _ & _ & H2).
  specialize (H2 1%Z (or_introl eq_refl)).
  change (valuation_of [(1, 1); (2, 1)]%Z 7 Wvar) with 7.
  assert (T : qsum (map (weight (Data.two_boxes 4 3))
                        (B (Data.two_boxes 4 3))) == 7)
    by (vm_compute; reflexivity).
  rewrite T in Htot. unfold loads in Htot. simpl in Htot. lra.
Qed.

Lemma single_wagon_carries_everything_witness :
  N (Data.one_wagon 100) = [1%Z] /\
  objective_value (built (Data.two_boxes 4 3) (Data.one_wagon 100))
                  (valuation_of [(1, 1); (2, 1)]%Z 7)
  == qsum (map (weight (Data.two_boxes 4 3)) (B (Data.two_boxes 4 3))).
Proof.
  split; [reflexivity|].
  apply (single_wagon_carries_everything (Data.two_boxes 4 3)
           (Data.one_wagon 100) _ _ 1 eq_refl).
  - intros b [<- | [<- | []]]; discriminate.
  - reflexivity.
  - exact two_boxes_one_wagon_optimal.
Defined.

End Minimax.

(** ** Changing the instance *)

Section Instances.

Lemma qsum_nonneg {A} (f : A -> Q) (l : list A) :
  (forall a, In a l -> 0 <= f a) -> 0 <= qsum (map f l).
Proof.
  intros H. rewrite <- (qsum_map_zero l). now apply qsum_map_le.
Qed.

(** Putting every box in one wagon is feasible. *)
Lemma all_in_wagon_feasible (boxes wagons : DataFrame) (n0 : Z) :
  NoDup (N wagons) -> In n0 (N wagons) ->
  (forall b, In b (B boxes) -> 0 <= weight boxes b) ->
  feasible (built boxes wagons)
           (all_in_wagon n0 (qsum (map (weight boxes) (B boxes)))).
Proof.
  intros HN Hn0 Hw. apply feasible_built. repeat split.
  - intros b n _ _. simpl. destruct (Z.eqb n0 n); [right | left]; reflexivity.
  - simpl. now apply qsum_nonneg.
  - intros b _. unfold placed. simpl. now apply qsum_indicator.
  - intros n _. unfold load. simpl. apply qsum_map_le. intros b Hb.
    specialize (Hw b Hb). destruct (Z.eqb n0 n); lra.
Qed.

(** X8: with non-negative weights and at least one wagon (labels distinct),
    the optimal objective value never exceeds the total weight. *)
Theorem optimum_at_most_total_weight
    (boxes wagons : DataFrame) (m : ConcreteModel) (v : valuation) :
  NoDup (N wagons) -> N wagons <> [] ->
  (forall b, In b (B boxes) -> 0 <= weight boxes b) ->
  build_model boxes wagons = inr m ->
  optimal m v ->
  objective_value m v <= qsum (map (weight boxes) (B boxes)).
Proof.
  intros HN Hne Hw E Hopt. apply build_model_inr in E. subst m.
  rewrite objective_value_built.
  apply optimal_built in Hopt. destruct Hopt as [_ Hmin].
  assert (Hex : exists n0, In n0 (N wagons)).
  { destruct (N wagons) as [|n0 l]; [congruence|]. exists n0. now left. }
  destruct Hex as [n0 Hn0].
  exact (Hmin _ (all_in_wagon_feasible boxes wagons n0 HN Hn0 Hw)).
Qed.

Lemma optimum_at_most_total_weight_witness :
  N Data.wagons <> [] /\
  objective_value (built Data.boxes Data.wagons) Data.saved_run
  <= qsum (map (weight Data.boxes) (B Data.boxes)).
Proof.
  assert (Hne : N Data.wagons <> []) by discriminate.
  split; [exact Hne|].
  exact (optimum_at_most_total_weight Data.boxes Data.wagons _ Data.saved_run
           (proj2 data_labels_distinct) Hne (fun b _ => data_weights_nonneg b)
           data_build saved_run_optimal).
Defined.

Lemma N_app (wagons wagons' : DataFrame) :
  N (wagons ++ wagons') = N wagons ++ N wagons'.
Proof. unfold N, index. apply map_app. Qed.

(** A valuation for the smaller set of wagons, with the new wagon left
    empty, is feasible for the larger set. *)
Lemma leaving_empty_feasible
    (boxes wagons : DataFrame) (n' : Z) (c : Q) (v : valuation) :
  ~ In n' (N wagons) ->
  feasible (built boxes wagons) v ->
  feasible (built boxes (wagons ++ [(n', c)])) (leaving_empty n' v).
Proof.
  intros Hn'. rewrite !feasible_built. intros (Hx & HW & H1 & H2).
  assert (Hold : forall b n, In n (N wagons) ->
                 leaving_empty n' v (xvar b n) = v (xvar b n)).
  { intros b n Hn. simpl. destruct (Z.eqb n n') eqn:E; [|reflexivity].
    apply Z.eqb_eq in E. subst n. contradiction. }
  assert (Hnew : forall b, leaving_empty n' v (xvar b n') = 0).
  { intros b. simpl. now rewrite Z.eqb_refl. }
  rewrite N_app. change (N [(n', c)]) with [n'].
  repeat split.
  - intros b n Hb Hn. apply in_app_or in Hn. destruct Hn as [Hn | [<- | []]].
    + rewrite (Hold b n Hn). now apply Hx.
    + rewrite Hnew. left. reflexivity.
  - exact HW.
  - intros b Hb. unfold placed. rewrite N_app, map_app, qsum_app.
    change (N [(n', c)]) with [n']. cbn [map qsum fold_right].
    rewrite Hnew.
    rewrite (qsum_map_ext _ (fun n => v (xvar b n))).
    + fold (placed wagons v b). rewrite (H1 b Hb). lra.
    + intros n Hn. now rewrite (Hold b n Hn).
  - intros n Hn. change (leaving_empty n' v Wvar) with (v Wvar).
    apply in_app_or in Hn. destruct Hn as [Hn | [<- | []]].
    + eapply Qle_trans; [|exact (H2 n Hn)].
      apply Qle_lteq. right. unfold load. apply qsum_map_ext.
      intros b _. now rewrite (Hold b n Hn).
    + unfold load.
      rewrite (qsum_map_ext _ (fun _ => 0)), qsum_map_zero; [exact HW|].
      intros b _. rewrite Hnew. lra.
Qed.

(** X9: one more wagon, under a new label, never raises the optimal
    objective value. *)
Theorem extra_wagon_never_hurts
    (boxes wagons : DataFrame) (n' : Z) (c : Q)
    (m m' : ConcreteModel) (v v' : valuation) :
  ~ In n' (N wagons) ->
  build_model boxes wagons = inr m ->
  build_model boxes (wagons ++ [(n', c)]) = inr m' ->
  optimal m v -> optimal m' v' ->
  objective_value m' v' <= objective_value m v.
Proof.
  intros Hn' E E' [Hf _] [_ Hmin'].
  apply build_model_inr in E. apply build_model_inr in E'. subst m m'.
  rewrite !objective_value_built.
  exact (Hmin' _ (leaving_empty_feasible boxes wagons n' c v Hn' Hf)).
Qed.

Lemma extra_wagon_never_hurts_witness :
  ~ In 2%Z (N (Data.one_wagon 100)) /\
  objective_value (built (Data.two_boxes 4 3) (Data.one_wagon 100 ++ [(2%Z, 100)]))
                  (valuation_of [(1, 1); (2, 2)]%Z 4)
  <= objective_value (built (Data.two_boxes 4 3) (Data.one_wagon 100))
                     (valuation_of [(1, 1); (2, 1)]%Z 7).
Proof.
  assert (Hn' : ~ In 2%Z (N (Data.one_wagon 100)))
    by (simpl; intuition discriminate).
  split; [exact Hn'|].
  apply (extra_wagon_never_hurts (Data.two_boxes 4 3) (Data.one_wagon 100)
           2 100 _ _ _ _ Hn' eq_refl eq_refl).
  - exact two_boxes_one_wagon_optimal.
  - apply (two_boxes_optimal 4 3). lia.
Defined.

End Instances.

(** ** The order of the rows *)

Section RowOrder.

Lemma qsum_perm (l l' : list Q) : Permutation l l' -> qsum l == qsum l'.
Proof.
  induction 1 as [|a l l' _ IH|a b l|l1 l2 l3 _ IH1 _ IH2]; simpl.
  - reflexivity.
  - rewrite IH. reflexivity.
  - lra.
  - now rewrite IH1.
Qed.

Lemma getitem_in (s : DataFrame) (k : Z) (q : Q) :
  NoDup (index s) -> In (k, q) s -> getitem s k = Some q.
Proof.
  induction s as [|[k' q'] s IH]; intros Hnd Hin; [destruct Hin|].
  simpl in Hnd. inversion Hnd as [|? ? Hk' Hs]; subst.
  simpl. destruct Hin as [E | Hin].
  - inversion E; subst. now rewrite Z.eqb_refl.
  - destruct (Z.eqb k' k) eqn:Ek; [|now apply IH].
    apply Z.eqb_eq in Ek. subst k'. exfalso. apply Hk'.
    apply in_map_iff. now exists (k, q).
Qed.

Lemma getitem_absent (s : DataFrame) (k : Z) :
  ~ In k (index s) -> getitem s k = None.
Proof.
  induction s as [|[k' q'] s IH]; intros Hk; [reflexivity|].
  simpl in *. destruct (Z.eqb k' k) eqn:Ek.
  - apply Z.eqb_eq in Ek. tauto.
  - apply IH. tauto.
Qed.

Lemma weight_perm (s s' : DataFrame) (k : Z) :
  NoDup (index s) -> Permutation s s' -> weight s k = weight s' k.
Proof.
  intros Hnd Hp. unfold weight.
  assert (Hnd' : NoDup (index s'))
    by (eapply Permutation_NoDup; [apply Permutation_map; exact Hp | exact Hnd]).
  destruct (in_dec Z.eq_dec k (index s)) as [Hin | Hout].
  - apply in_map_iff in Hin. destruct Hin as ([k' q] & E & Hin).
    simpl in E. subst k'.
    rewrite (getitem_in s k q Hnd Hin).
    now rewrite (getitem_in s' k q Hnd' (Permutation_in _ Hp Hin)).
  - rewrite (getitem_absent s k Hout), getitem_absent; [reflexivity|].
    intros Hin. apply Hout.
    eapply Permutation_in; [apply Permutation_map, Permutation_sym; exact Hp|].
    exact Hin.
Qed.

Lemma feasible_perm (boxes boxes' wagons wagons' : DataFrame) (v : valuation) :
  Permutation boxes boxes' -> Permutation wagons wagons' ->
  NoDup (B boxes) ->
  feasible (built boxes wagons) v -> feasible (built boxes' wagons') v.
Proof.
  intros Pb Pw Hnd. rewrite !feasible_built. intros (Hx & HW & H1 & H2).
  assert (PB : Permutation (B boxes') (B boxes))
    by (apply Permutation_map, Permutation_sym, Pb).
  assert (PN : Permutation (N wagons') (N wagons))
    by (apply Permutation_map, Permutation_sym, Pw).
  repeat split.
  - intros b n Hb Hn.
    apply Hx; [exact (Permutation_in _ PB Hb) | exact (Permutation_in _ PN Hn)].
  - exact HW.
  - intros b Hb. unfold placed.
    rewrite (qsum_perm _ _ (Permutation_map (fun n => v (xvar b n)) PN)).
    exact (H1 b (Permutation_in _ PB Hb)).
  - intros n Hn. eapply Qle_trans; [|exact (H2 n (Permutation_in _ PN Hn))].
    apply Qle_lteq. right. unfold load.
    rewrite (qsum_perm _ _ (Permutation_map
               (fun b => weight boxes' b * v (xvar b n)) PB)).
    apply qsum_map_ext. intros b _.
    now rewrite (weight_perm boxes boxes' b Hnd Pb).
Qed.

Lemma optimal_perm (boxes boxes' wagons wagons' : DataFrame) (v : valuation) :
  Permutation boxes boxes' -> Permutation wagons wagons' ->
  NoDup (B boxes) ->
  optimal (built boxes wagons) v -> optimal (built boxes' wagons') v.
Proof.
  intros Pb Pw Hnd Hopt. apply optimal_built in Hopt.
  destruct Hopt as [Hf Hmin]. apply optimal_built. split.
  - now apply (feasible_perm boxes boxes' wagons wagons').
  - intros v' Hf'. apply Hmin.
    apply (feasible_perm boxes' boxes wagons' wagons);
      try (now apply Permutation_sym); [|exact Hf'].
    eapply Permutation_NoDup; [apply Permutation_map; exact Pb | exact Hnd].
Qed.

(** X10: the order of the rows of the two sheets does not matter.  With
    distinct box labels, reordering the rows of [Boxes] and of [Wagons]
    leaves the feasible valuations and the optimal objective value
    unchanged. *)
Theorem row_order_is_irrelevant
    (boxes boxes' wagons wagons' : DataFrame)
    (m m' : ConcreteModel) (v v' : valuation) :
  Permutation boxes boxes' -> Permutation wagons wagons' ->
  NoDup (B boxes) ->
  build_model boxes wagons = inr m ->
  build_model boxes' wagons' = inr m' ->
  optimal m v -> optimal m' v' ->
  (forall u, feasible m u <-> feasible m' u) /\
  objective_value m v == objective_value m' v'.
Proof.
  intros Pb Pw Hnd E E' Hopt Hopt'.
  apply build_model_inr in E. apply build_model_inr in E'. subst m m'.
  assert (Hnd' : NoDup (B boxes'))
    by (eapply Permutation_NoDup; [apply Permutation_map; exact Pb | exact Hnd]).
  split.
  - intros u. split.
    + now apply feasible_perm.
    + apply feasible_perm; try (now apply Permutation_sym). exact Hnd'.
  - rewrite !objective_value_built.
    pose proof (optimal_perm _ _ _ _ _ Pb Pw Hnd Hopt) as Hv.
    apply optimal_built in Hv. apply optimal_built in Hopt'.
    apply Qle_antisym.
    + apply (proj2 Hv). exact (proj1 Hopt').
    + apply (proj2 Hopt'). exact (proj1 Hv).
Qed.

Lemma row_order_is_irrelevant_witness :
  Permutation (Data.two_boxes 4 3) [(2%Z, 3); (1%Z, 4)] /\
  objective_value (built (Data.two_boxes 4 3) Data.two_wagons)
                  (valuation_of [(1, 1); (2, 2)]%Z 4)
  == objective_value (built [(2%Z, 3); (1%Z, 4)] Data.two_wagons)
                     (valuation_of [(1, 1); (2, 2)]%Z 4).
Proof.
  assert (Pb : Permutation (Data.two_boxes 4 3) [(2%Z, 3); (1%Z, 4)])
    by apply perm_swap.
  assert (Hnd : NoDup (B (Data.two_boxes 4 3)))
    by (repeat (constructor; [simpl; intuition discriminate|]); constructor).
  assert (Hopt : optimal (built (Data.two_boxes 4 3) Data.two_wagons)
                         (valuation_of [(1, 1); (2, 2)]%Z 4))
    by (apply (two_boxes_optimal 4 3); lia).
  split; [exact Pb|].
  refine (proj2 (row_order_is_irrelevant (Data.two_boxes 4 3) [(2%Z, 3); (1%Z, 4)]
                   Data.two_wagons Data.two_wagons _ _ _ _
                   Pb (Permutation_refl _) Hnd eq_refl eq_refl Hopt _)).
  exact (optimal_perm _ _ _ _ _ Pb (Permutation_refl _) Hnd Hopt).
Defined.

End RowOrder.

(** ** The size of the model *)

Section Size.

Lemma length_product (Bs Ns : list Z) :
  List.length (product Bs Ns) = (List.length Bs * List.length Ns)%nat.
Proof.
  unfold product. induction Bs as [|b Bs IH]; simpl; [reflexivity|].
  now rewrite length_app, length_map, IH.
Qed.

(** X11: on sheets with distinct labels the model has one indicator per
    (box, wagon) pair, that is [len(B) * len(N)] of them beside [W], and
    [len(B) + len(N)] constraints: 48 + 1 variables and 19 constraints for
    the sheets of the notebook, the figures of the saved solver report. *)
Theorem build_model_size (boxes wagons : DataFrame) (m : ConcreteModel) :
  NoDup (B boxes) -> NoDup (N wagons) ->
  build_model boxes wagons = inr m ->
  exists idx c1 c2,
    x m = Some (idx, Binary) /\
    constraint1 m = Some c1 /\ constraint2 m = Some c2 /\
    NoDup idx /\
    List.length idx = (List.length (B boxes) * List.length (N wagons))%nat /\
    (List.length c1 + List.length c2
     = List.length (B boxes) + List.length (N wagons))%nat.
Proof.
  intros HB HN E. apply build_model_inr in E. subst m.
  eexists _, _, _. split; [reflexivity|]. split; [reflexivity|].
  split; [reflexivity|]. split; [|split].
  - now apply NoDup_product.
  - apply length_product.
  - now rewrite !length_map.
Qed.

Lemma build_model_size_witness :
  NoDup (B Data.boxes) /\ NoDup (N Data.wagons) /\
  exists idx c1 c2,
    x (built Data.boxes Data.wagons) = Some (idx, Binary) /\
    constraint1 (built Data.boxes Data.wagons) = Some c1 /\
    constraint2 (built Data.boxes Data.wagons) = Some c2 /\
    List.length idx = 48%nat /\
    (List.length c1 + List.length c2 = 19)%nat.
Proof.
  split; [exact (proj1 data_labels_distinct)|].
  split; [exact (proj2 data_labels_distinct)|].
  destruct (build_model_size Data.boxes Data.wagons _
              (proj1 data_labels_distinct) (proj2 data_labels_distinct)
              data_build)
    as (idx & c1 & c2 & Hx & H1 & H2 & _ & Hl & Hc).
  exists idx, c1, c2. repeat split; assumption.
Defined.

End Size.

(** ** Runs of the whole notebook *)

Section Runs.
Variables boxes wagons : DataFrame.

Lemma qnat_inj (a b : nat) : qnat a == qnat b -> a = b.
Proof.
  unfold qnat. intros H. apply (proj1 (inject_Z_injective _ _)) in H.
  now apply Nat2Z.inj.
Qed.

Lemma qnat_plus (a b : nat) : qnat (a + b) == qnat a + qnat b.
Proof. unfold qnat. now rewrite Nat2Z.inj_add, inject_Z_plus. Qed.

Lemma qsum_ones {A} (l : list A) : qsum (map (fun _ => 1) l) == qnat (List.length l).
Proof.
  induction l as [|a l IH].
  - reflexivity.
  - change (List.length (a :: l)) with (1 + List.length l)%nat.
    rewrite qnat_plus. simpl. rewrite IH. reflexivity.
Qed.

(** The lines printed for one wagon are as many as its indicators add up
    to. *)
Lemma length_row (v : valuation) (n : Z) (l : list Z) :
  (forall b, In b l -> v (xvar b n) == 0 \/ v (xvar b n) == 1) ->
  qnat (List.length
          (flat_map (fun b =>
             match loaded v (xvar b n) with
             | Some q => if negb (Qeq_bool q 0) then [Assigned b n] else []
             | None => []
             end) l))
  == qsum (map (fun b => v (xvar b n)) l).
Proof.
  induction l as [|b l IH]; intros H.
  - reflexivity.
  - cbn [flat_map map qsum fold_right]. rewrite length_app, qnat_plus.
    fold (qsum (map (fun b => v (xvar b n)) l)).
    rewrite IH by (intros; apply H; now right).
    unfold loaded at 1.
    destruct (H b (or_introl eq_refl)) as [E | E].
    + rewrite (proj2 (Qeq_bool_iff _ _) E). rewrite E. reflexivity.
    + destruct (Qeq_bool (v (xvar b n)) 0) eqn:Eb.
      * apply Qeq_bool_iff in Eb. rewrite E in Eb. discriminate.
      * rewrite E. reflexivity.
Qed.

Lemma length_nonzero_pairs (v : valuation) :
  feasible (built boxes wagons) v ->
  List.length (nonzero_pairs boxes wagons (loaded v)) = List.length (B boxes).
Proof.
  intros Hf. apply feasible_built in Hf. destruct Hf as (Hx & _ & H1 & _).
  apply qnat_inj. rewrite <- (qsum_ones (B boxes)).
  rewrite <- (qsum_map_ext (fun b => placed wagons v b) (fun _ => 1) (B boxes) H1).
  unfold placed.
  rewrite (qsum_exchange (fun b n => v (xvar b n)) (B boxes) (N wagons)).
  unfold nonzero_pairs.
  assert (G : forall l, incl l (N wagons) ->
    qnat (List.length
            (flat_map (fun n =>
               flat_map (fun b =>
                 match loaded v (xvar b n) with
                 | Some q => if negb (Qeq_bool q 0) then [Assigned b n] else []
                 | None => []
                 end) (B boxes)) l))
    == qsum (map (fun n => qsum (map (fun b => v (xvar b n)) (B boxes))) l)).
  { induction l as [|n l IH]; intros Hl.
    - reflexivity.
    - cbn [flat_map map qsum fold_right]. rewrite length_app, qnat_plus.
      rewrite length_row, IH.
      + reflexivity.
      + intros n' Hn'. apply Hl. now right.
      + intros b Hb. apply Hx; [exact Hb | apply Hl; now left]. }
  apply G, incl_refl.
Qed.

Lemma nonzero_pairs_assigned (vals : var -> option Q) :
  Forall is_assigned (nonzero_pairs boxes wagons vals).
Proof.
  apply Forall_forall. intros [b n | w] Hin; [exact I|].
  now apply heaviest_not_in_nonzero_pairs in Hin.
Qed.

End Runs.

Section RunsOfSolutions.

(** X12: when the engine loads a feasible valuation, the run ends
    normally, asks for every indicator and then for [W], and prints
    [len(B)] assignment lines followed by one line with the value of [W]. *)
Theorem run_all_prints_each_box_once
    (boxes wagons : DataFrame)
    (engine : ConcreteModel -> TerminationCondition.t * (var -> option Q))
    (m : ConcreteModel) (tc : TerminationCondition.t) (v : valuation) :
  build_model boxes wagons = inr m ->
  engine m = (tc, loaded v) ->
  feasible m v ->
  exists lines,
    run_all boxes wagons engine
    = (inr tt, mkIO (all_reads boxes wagons) (lines ++ [Heaviest (v Wvar)])) /\
    List.length lines = List.length (B boxes) /\
    Forall is_assigned lines.
Proof.
  intros E He Hf. exists (nonzero_pairs boxes wagons (loaded v)).
  split; [|split].
  - unfold run_all. rewrite E. unfold solve. rewrite He.
    apply build_model_inr in E. subst m.
    apply after_solve_ok; [|reflexivity].
    intros b n _ _. discriminate.
  - apply build_model_inr in E. subst m. now apply length_nonzero_pairs.
  - apply nonzero_pairs_assigned.
Qed.

End RunsOfSolutions.

Section SavedOutput.

(** The saved run, replayed: the seventeen lines of the notebook. *)
Lemma run_all_prints_each_box_once_witness :
  run_all Data.boxes Data.wagons
    (engine_const TerminationCondition.optimal (loaded Data.saved_run))
  = (inr tt, mkIO (all_reads Data.boxes Data.wagons) Data.saved_output) /\
  exists lines,
    run_all Data.boxes Data.wagons
      (engine_const TerminationCondition.optimal (loaded Data.saved_run))
    = (inr tt, mkIO (all_reads Data.boxes Data.wagons)
                    (lines ++ [Heaviest (Data.saved_run Wvar)])) /\
    List.length lines = List.length (B Data.boxes).
Proof.
  split; [vm_compute; reflexivity|].
  destruct (run_all_prints_each_box_once Data.boxes Data.wagons
              (engine_const TerminationCondition.optimal (loaded Data.saved_run))
              _ TerminationCondition.optimal Data.saved_run
              data_build eq_refl saved_run_feasible)
    as (lines & E & Hl & _).
  exists lines. split; [exact E | exact Hl].
Defined.

End SavedOutput.

(** ** Runs on values that are missing *)

Section Missing.
Variables boxes wagons : DataFrame.
Variable m : ConcreteModel.

Lemma decode_row_run (n : Z) (l : list Z) (s : io) :
  exists e s' lines,
    Py.for_ l (fun b =>
      (q <- pyo_value m (Ref (xvar b n)) ;;
       if negb (Qeq_bool q 0) then print (Assigned b n) else Py.ret tt)%py) s
    = (e, s') /\
    e = (if forallb (fun b => match value_of m (xvar b n) with
                              | Some _ => true
                              | None => false
                              end) l
         then inr tt
         else inl (ValueError "No value for uninitialized NumericValue object")) /\
    stdout s' = stdout s ++ lines /\ Forall is_assigned lines.
Proof.
  revert s. induction l as [|b l IH]; intros s.
  - exists (inr tt), s, []. repeat split; [now rewrite app_nil_r | constructor].
  - cbn [Py.for_ forallb]. unfold Py.bind at 1.
    destruct (value_of m (xvar b n)) as [q|] eqn:E.
    + rewrite (bind_ok _ _ _ _ _ (pyo_value_var_some m (xvar b n) q s E)).
      destruct (negb (Qeq_bool q 0)).
      * unfold print at 1, Py.modify at 1.
        destruct (IH (mkIO (reads (log_read (xvar b n) s))
                           (stdout (log_read (xvar b n) s) ++ [Assigned b n])))
          as (e & s' & lines & Hrun & He & Hout & Hall).
        exists e, s', (Assigned b n :: lines). rewrite Hrun.
        repeat split; [exact He | | constructor; [exact I | exact Hall]].
        rewrite Hout. cbn [stdout log_read]. now rewrite <- app_assoc.
      * unfold Py.ret at 1.
        destruct (IH (log_read (xvar b n) s))
          as (e & s' & lines & Hrun & He & Hout & Hall).
        exists e, s', lines. rewrite Hrun.
        repeat split; [exact He | exact Hout | exact Hall].
    + rewrite (bind_raise _ _ _ _ _ (pyo_value_var_none m (xvar b n) s E)).
      eexists _, _, []. repeat split; [cbn; now rewrite app_nil_r | constructor].
Qed.

Lemma decode_cell_run (s : io) :
  exists e s' lines,
    decode_cell boxes wagons m s = (e, s') /\
    e = (if indicators_loaded boxes wagons (value_of m)
         then inr tt
         else inl (ValueError "No value for uninitialized NumericValue object")) /\
    stdout s' = stdout s ++ lines /\ Forall is_assigned lines.
Proof.
  unfold decode_cell, indicators_loaded. revert s.
  induction (N wagons) as [|n l IH]; intros s.
  - exists (inr tt), s, []. repeat split; [now rewrite app_nil_r | constructor].
  - cbn [Py.for_ forallb]. unfold Py.bind at 1.
    destruct (decode_row_run n (B boxes) s)
      as (e & s1 & lines & Hrun & He & Hout & Hall).
    rewrite Hrun.
    destruct (forallb _ (B boxes)); subst e.
    + destruct (IH s1) as (e' & s' & lines' & Hrun' & He' & Hout' & Hall').
      exists e', s', (lines ++ lines'). rewrite Hrun'.
      repeat split; [exact He' | | apply Forall_app; now split].
      rewrite Hout', Hout. now rewrite <- app_assoc.
    + eexists _, _, lines. repeat split; [exact Hout | exact Hall].
Qed.

End Missing.

Section MissingValues.

(** X13: the run ends normally exactly when every indicator and [W] hold
    a value; otherwise it stops on the [ValueError] of [pyo.value].  The
    line with the objective value is printed only by a run that ends
    normally. *)
Theorem run_all_needs_every_value
    (boxes wagons : DataFrame)
    (engine : ConcreteModel -> TerminationCondition.t * (var -> option Q))
    (m : ConcreteModel) (tc : TerminationCondition.t) (vals : var -> option Q) :
  build_model boxes wagons = inr m ->
  engine m = (tc, vals) ->
  exists e out,
    run_all boxes wagons engine = (e, out) /\
    e = (if indicators_loaded boxes wagons vals
            && match vals Wvar with Some _ => true | None => false end
         then inr tt
         else inl (ValueError "No value for uninitialized NumericValue object")) /\
    (e <> inr tt -> Forall is_assigned (stdout out)).
Proof.
  intros E He. unfold run_all. rewrite E. unfold solve. rewrite He.
  apply build_model_inr in E. subst m.
  unfold after_solve. unfold Py.bind at 1.
  destruct (decode_cell_run boxes wagons (load_values vals (built boxes wagons)) io0)
    as (e & s1 & lines & Hrun & He' & Hout & Hall).
  rewrite Hrun. cbn [value_of load_values] in He'.
  destruct (indicators_loaded boxes wagons vals); subst e.
  - cbn [andb]. unfold report_cell. cbn [objective load_values built].
    destruct (vals Wvar) as [w|] eqn:Ew.
    + rewrite (bind_ok _ _ _ _ _
                 (pyo_value_var_some (load_values vals (built boxes wagons))
                    Wvar w s1 Ew)).
      eexists _, _. split; [reflexivity|]. split; [reflexivity|].
      intros H. now destruct H.
    + rewrite (bind_raise _ _ _ _ _
                 (pyo_value_var_none (load_values vals (built boxes wagons))
                    Wvar s1 Ew)).
      eexists _, _. split; [reflexivity|]. split; [reflexivity|].
      intros _. cbn [log_read stdout]. rewrite Hout. exact Hall.
  - eexists _, _. split; [reflexivity|]. split; [reflexivity|].
    intros _. rewrite Hout. exact Hall.
Qed.

Lemma run_all_needs_every_value_witness :
  run_all (Data.one_box 3) (Data.one_wagon 100)
    (engine_const TerminationCondition.infeasible (fun _ => None))
  = (inl (ValueError "No value for uninitialized NumericValue object"),
     mkIO [xvar 1 1] []) /\
  exists e out,
    run_all (Data.one_box 3) (Data.one_wagon 100)
      (engine_const TerminationCondition.infeasible (fun _ => None))
    = (e, out) /\
    e = inl (ValueError "No value for uninitialized NumericValue object").
Proof.
  split; [reflexivity|].
  destruct (run_all_needs_every_value (Data.one_box 3) (Data.one_wagon 100)
              (engine_const TerminationCondition.infeasible (fun _ => None))
              _ TerminationCondition.infeasible (fun _ => None)
              eq_refl eq_refl)
    as (e & out & Hrun & He & _).
  exists e, out. split; [exact Hrun | exact He].
Defined.

End MissingValues.

(** ** Empty sheets *)

Section EmptySheets.

(** X14: with boxes but no wagon the run stops in the construction cell,
    on the [ValueError] of [ConstraintList.add]: the engine is not
    consulted, no value is asked for and nothing is printed. *)
Theorem run_all_stops_without_wagon
    (boxes wagons : DataFrame)
    (engine : ConcreteModel -> TerminationCondition.t * (var -> option Q)) :
  N wagons = [] -> B boxes <> [] ->
  run_all boxes wagons engine
  = (inl (ValueError "Invalid constraint expression: trivial Boolean"), io0).
Proof.
  intros HN HB. unfold run_all.
  now rewrite (build_model_no_wagon boxes wagons HN HB).
Qed.

Lemma run_all_stops_without_wagon_witness :
  B (Data.one_box 3) <> [] /\
  run_all (Data.one_box 3) []
    (engine_const TerminationCondition.optimal (loaded (valuation_of [] 0)))
  = (inl (ValueError "Invalid constraint expression: trivial Boolean"), io0).
Proof.
  assert (HB : B (Data.one_box 3) <> []) by discriminate.
  split; [exact HB|].
  exact (run_all_stops_without_wagon (Data.one_box 3) [] _ eq_refl HB).
Defined.

Lemma flat_map_nil {A C} (l : list A) : flat_map (fun _ : A => @nil C) l = [].
Proof. induction l as [|a l IH]; simpl; [reflexivity | exact IH]. Qed.

(** X15: with no box the model is still built; its optimal objective value
    is 0, and a run on an optimal valuation prints the line with that
    value and nothing else. *)
Theorem empty_boxes_sheet
    (boxes wagons : DataFrame)
    (engine : ConcreteModel -> TerminationCondition.t * (var -> option Q))
    (m : ConcreteModel) (tc : TerminationCondition.t) (v : valuation) :
  B boxes = [] ->
  build_model boxes wagons = inr m ->
  optimal m v ->
  engine m = (tc, loaded v) ->
  objective_value m v == 0 /\
  run_all boxes wagons engine = (inr tt, mkIO [Wvar] [Heaviest (v Wvar)]).
Proof.
  intros HB E Hopt He. split.
  - apply build_model_inr in E. subst m. rewrite objective_value_built.
    rewrite (optimal_value _ _ _ Hopt).
    apply Qle_antisym; [|apply qmax_from_ge_floor].
    apply qmax_from_lub; [apply Qle_refl|].
    intros q Hq. apply in_loads in Hq. destruct Hq as (n & _ & ->).
    unfold load. rewrite HB. apply Qle_refl.
  - unfold run_all. rewrite E. unfold solve. rewrite He.
    apply build_model_inr in E. subst m.
    rewrite (after_solve_ok boxes wagons tc (loaded v) (v Wvar));
      [|intros b n _ _; discriminate | reflexivity].
    unfold all_reads, nonzero_pairs. rewrite HB. cbn [map flat_map].
    now rewrite !flat_map_nil.
Qed.

Lemma empty_boxes_sheet_witness :
  B [] = [] /\
  run_all [] Data.wagons
    (engine_const TerminationCondition.optimal (loaded (valuation_of [] 0)))
  = (inr tt, mkIO [Wvar] [Heaviest 0]).
Proof.
  split; [reflexivity|].
  refine (proj2 (empty_boxes_sheet [] Data.wagons
                   (engine_const TerminationCondition.optimal
                                 (loaded (valuation_of [] 0)))
                   _ TerminationCondition.optimal (valuation_of [] 0)
                   eq_refl eq_refl _ eq_refl)).
  apply optimal_built. split.
  - apply feasibleb_sound. vm_compute. reflexivity.
  - intros v' Hf'. apply feasible_built in Hf'. exact (proj1 (proj2 Hf')).
Defined.

End EmptySheets.

(** ** Reading the loads off the printout *)

Section Printout.
Variables boxes wagons : DataFrame.

Lemma qsum_flat_map {A} (g : line -> Q) (f : A -> list line) (l : list A) :
  qsum (map g (flat_map f l)) == qsum (map (fun a => qsum (map g (f a))) l).
Proof.
  induction l as [|a l IH]; simpl.
  - reflexivity.
  - rewrite map_app, qsum_app, IH. reflexivity.
Qed.

Lemma qsum_select (Ns : list Z) (n0 : Z) (c : Q) :
  NoDup Ns -> In n0 Ns ->
  qsum (map (fun n => if Z.eqb n n0 then c else 0) Ns) == c.
Proof.
  intros HN Hin.
  rewrite (qsum_map_ext _ (fun n => c * (if Z.eqb n0 n then 1 else 0))).
  - rewrite qsum_map_scal, (qsum_indicator Ns n0 HN Hin). lra.
  - intros n _. rewrite (Z.eqb_sym n n0). destruct (Z.eqb n0 n); lra.
Qed.

(** The weights listed with wagon [n] add up to its load. *)
Lemma printed_weight_is_load (v : valuation) (n : Z) :
  NoDup (N wagons) -> In n (N wagons) ->
  (forall b n', In b (B boxes) -> In n' (N wagons) ->
                v (xvar b n') == 0 \/ v (xvar b n') == 1) ->
  printed_weight boxes (nonzero_pairs boxes wagons (loaded v)) n
  == load boxes v n.
Proof.
  intros HN Hn Hx. unfold printed_weight, nonzero_pairs.
  rewrite qsum_flat_map.
  rewrite (qsum_map_ext _ (fun n' => if Z.eqb n' n then load boxes v n else 0)).
  - now apply qsum_select.
  - intros n' Hn'. rewrite qsum_flat_map. unfold load.
    destruct (Z.eqb n' n) eqn:E.
    + apply Z.eqb_eq in E. subst n'. apply qsum_map_ext. intros b Hb.
      unfold loaded.
      destruct (Hx b n Hb Hn) as [E0 | E1].
      * rewrite (proj2 (Qeq_bool_iff _ _) E0), E0. simpl. lra.
      * destruct (Qeq_bool (v (xvar b n)) 0) eqn:Eb.
        -- apply Qeq_bool_iff in Eb. rewrite E1 in Eb. discriminate.
        -- simpl. rewrite Z.eqb_refl, E1. lra.
    + rewrite <- (qsum_map_zero (B boxes)). apply qsum_map_ext. intros b _.
      unfold loaded. destruct (negb (Qeq_bool (v (xvar b n')) 0)); simpl.
      * rewrite E. lra.
      * reflexivity.
Qed.

End Printout.

Section PrintoutOfOptimum.

(** X16: the printout of a run on an optimal valuation is consistent with
    itself (distinct wagon labels, non-negative weights): the weights of
    the boxes listed with a wagon never add up to more than the printed
    objective value, and for some wagon they add up to exactly that
    value. *)
Theorem printout_is_consistent
    (boxes wagons : DataFrame)
    (engine : ConcreteModel -> TerminationCondition.t * (var -> option Q))
    (m : ConcreteModel) (tc : TerminationCondition.t) (v : valuation) :
  NoDup (N wagons) -> N wagons <> [] ->
  (forall b, In b (B boxes) -> 0 <= weight boxes b) ->
  build_model boxes wagons = inr m ->
  engine m = (tc, loaded v) ->
  optimal m v ->
  exists lines w,
    stdout (snd (run_all boxes wagons engine)) = lines ++ [Heaviest w] /\
    (forall n, In n (N wagons) -> printed_weight boxes lines n <= w) /\
    (exists n, In n (N wagons) /\ printed_weight boxes lines n == w).
Proof.
  intros HN Hne Hw E He Hopt.
  exists (nonzero_pairs boxes wagons (loaded v)), (v Wvar).
  assert (Em := E). apply build_model_inr in Em. subst m.
  pose proof (proj1 Hopt) as Hf.
  pose proof (proj1 (feasible_built _ _ _) Hf) as (Hx & _ & _ & H2).
  split; [|split].
  - unfold run_all. rewrite E. unfold solve. rewrite He.
    rewrite (after_solve_ok boxes wagons tc (loaded v) (v Wvar));
      [reflexivity | intros b n _ _; discriminate | reflexivity].
  - intros n Hn. rewrite (printed_weight_is_load boxes wagons v n HN Hn Hx).
    now apply H2.
  - pose proof (optimal_value _ _ _ Hopt) as HW.
    destruct (qmax_from_attained 0 (loads boxes wagons v))
      as [E0 | (q & Hq & Eq)].
    + assert (Hex : exists n, In n (N wagons)).
      { destruct (N wagons) as [|n l]; [congruence|]. exists n. now left. }
      destruct Hex as [n Hn]. exists n. split; [exact Hn|].
      rewrite (printed_weight_is_load boxes wagons v n HN Hn Hx).
      assert (0 <= load boxes v n).
      { apply load_nonneg; [exact Hw|]. intros b Hb. now apply Hx. }
      assert (load boxes v n <= v Wvar) by (now apply H2).
      rewrite E0 in HW. lra.
    + apply in_loads in Hq. destruct Hq as (n & Hn & ->).
      exists n. split; [exact Hn|].
      rewrite (printed_weight_is_load boxes wagons v n HN Hn Hx).
      rewrite HW, Eq. reflexivity.
Qed.

Lemma printout_is_consistent_witness :
  printed_weight Data.boxes (removelast Data.saved_output) 2 == 99 /\
  exists lines w,
    stdout (snd (run_all Data.boxes Data.wagons
                   (engine_const TerminationCondition.optimal
                                 (loaded Data.saved_run))))
    = lines ++ [Heaviest w] /\
    exists n, In n (N Data.wagons) /\ printed_weight Data.boxes lines n == w.
Proof.
  split; [vm_compute; reflexivity|].
  assert (Hne : N Data.wagons <> []) by discriminate.
  destruct (printout_is_consistent Data.boxes Data.wagons
              (engine_const TerminationCondition.optimal (loaded Data.saved_run))
              (built Data.boxes Data.wagons)
              TerminationCondition.optimal Data.saved_run
              (proj2 data_labels_distinct) Hne
              (fun b _ => data_weights_nonneg b)
              data_build eq_refl saved_run_optimal)
    as (lines & w & Hout & _ & Hn).
  exists lines, w. split; [exact Hout | exact Hn].
Defined.

End PrintoutOfOptimum.

(** ** A change of unit *)

Section Unit.

Lemma index_scale_weights (c : Q) (boxes : DataFrame) :
  index (scale_weights c boxes) = index boxes.
Proof. unfold scale_weights, index. rewrite map_map. reflexivity. Qed.

Lemma weight_scale_weights (c : Q) (boxes : DataFrame) (b : Z) :
  weight (scale_weights c boxes) b == c * weight boxes b.
Proof.
  unfold weight. induction boxes as [|[k q] l IH]; simpl.
  - lra.
  - destruct (Z.eqb k b); [reflexivity | exact IH].
Qed.

Lemma load_scale_weights (c : Q) (boxes : DataFrame) (v : valuation) (n : Z) :
  load (scale_weights c boxes) v n == c * load boxes v n.
Proof.
  unfold load, B. rewrite index_scale_weights, <- qsum_map_scal.
  apply qsum_map_ext. intros b _. rewrite weight_scale_weights. lra.
Qed.

Lemma feasible_scaled (c : Q) (boxes wagons : DataFrame) (v : valuation) :
  0 <= c ->
  feasible (built boxes wagons) v ->
  feasible (built (scale_weights c boxes) wagons) (with_W v (c * v Wvar)).
Proof.
  intros Hc. rewrite !feasible_built. unfold B at 1 3 4.
  rewrite index_scale_weights. fold (B boxes).
  intros (Hx & HW & H1 & H2). repeat split.
  - exact Hx.
  - simpl. now apply Qmult_le_0_compat.
  - exact H1.
  - intros n Hn. simpl. change (load (scale_weights c boxes) (with_W v (c * v Wvar)) n)
      with (load (scale_weights c boxes) v n).
    rewrite load_scale_weights.
    specialize (H2 n Hn). nra.
Qed.

Lemma feasible_unscaled (c : Q) (boxes wagons : DataFrame) (v : valuation) :
  0 < c ->
  feasible (built (scale_weights c boxes) wagons) v ->
  feasible (built boxes wagons) (with_W v (/ c * v Wvar)).
Proof.
  intros Hc. rewrite !feasible_built. unfold B at 1 2.
  rewrite index_scale_weights. fold (B boxes).
  intros (Hx & HW & H1 & H2).
  assert (Hi : 0 < / c) by (now apply Qinv_lt_0_compat).
  repeat split.
  - exact Hx.
  - simpl. apply Qmult_le_0_compat; [now apply Qlt_le_weak | exact HW].
  - exact H1.
  - intros n Hn. simpl.
    change (load boxes (with_W v (/ c * v Wvar)) n) with (load boxes v n).
    specialize (H2 n Hn). rewrite load_scale_weights in H2.
    apply (Qmult_le_l _ _ c Hc).
    rewrite Qmult_assoc, Qmult_inv_r, Qmult_1_l; [exact H2|].
    intros E. rewrite E in Hc. discriminate.
Qed.

(** X17: a change of unit scales the result.  Multiplying every weight by
    a positive factor multiplies the optimal objective value by that
    factor. *)
Theorem optimum_scales_with_weights
    (c : Q) (boxes wagons : DataFrame)
    (m m' : ConcreteModel) (v v' : valuation) :
  0 < c ->
  build_model boxes wagons = inr m ->
  build_model (scale_weights c boxes) wagons = inr m' ->
  optimal m v -> optimal m' v' ->
  objective_value m' v' == c * objective_value m v.
Proof.
  intros Hc E E' Hopt Hopt'.
  apply build_model_inr in E. apply build_model_inr in E'. subst m m'.
  rewrite !objective_value_built.
  apply optimal_built in Hopt. apply optimal_built in Hopt'.
  destruct Hopt as [Hf Hmin]. destruct Hopt' as [Hf' Hmin'].
  apply Qle_antisym.
  - exact (Hmin' _ (feasible_scaled c boxes wagons v (Qlt_le_weak _ _ Hc) Hf)).
  - pose proof (Hmin _ (feasible_unscaled c boxes wagons v' Hc Hf')) as H.
    unfold no_worse in H. cbn [objective built] in H.
    rewrite !objective_value_built in H.
    change (with_W v' (/ c * v' Wvar) Wvar) with (/ c * v' Wvar) in H.
    apply (proj2 (Qmult_le_l _ _ c Hc)) in H.
    rewrite Qmult_assoc, Qmult_inv_r, Qmult_1_l in H; [exact H|].
    intros E. rewrite E in Hc. discriminate.
Qed.

Lemma optimum_scales_with_weights_witness :
  0 < 100 /\
  objective_value (built (scale_weights 100 (Data.two_boxes 4 3)) Data.two_wagons)
                  (valuation_of [(1, 1); (2, 2)]%Z 400)
  == 100 * objective_value (built (Data.two_boxes 4 3) Data.two_wagons)
                           (valuation_of [(1, 1); (2, 2)]%Z 4).
Proof.
  assert (Hc : 0 < 100) by reflexivity.
  split; [exact Hc|].
  apply (optimum_scales_with_weights 100 (Data.two_boxes 4 3) Data.two_wagons
           _ _ _ _ Hc eq_refl eq_refl).
  - apply (two_boxes_optimal 4 3). lia.
  - apply (two_boxes_optimal 400 300). lia.
Defined.

End Unit.
